(** * Pipeline travel-time model ([flow_model.py])

    A shallow embedding of the corrosion, velocity and traversal code of
    [flow_model.py], and the properties of it that the specification
    states.

    Numbers.  Python [float]s are modelled as real numbers with exact
    arithmetic; the positive-infinity value [float('inf')] and the
    [complex] values that [**] produces on a negative base are separate
    constructors, because the code's behaviour depends on them.  Binary
    rounding error, overflow and NaN are outside this model; the decimal
    rounding that the code performs itself ([round(x, n)]) is inside it.
    Where the exact value lies half-way between two decimals the float
    that the code rounds lies just off it, and the code may take the other
    neighbour: statements about a rounded value that must hold of the code
    there are given as bounds (half a unit of the last decimal), not as
    an equation with [Py.round].

    Errors.  Python exceptions are the [Raise] results of an error monad. *)

From Stdlib Require Import Reals Lra Lia ZArith List String Zfloor Bool.
Import ListNotations.

Open Scope R_scope.

(** ** Exceptions *)

Inductive exn : Type :=
| TypeError
| ZeroDivisionError
| IndexError.

Inductive result (A : Type) : Type :=
| Ok (a : A)
| Raise (e : exn).

Arguments Ok {A} a.
Arguments Raise {A} e.

Definition bind {A B : Type} (m : result A) (k : A -> result B) : result B :=
  match m with
  | Ok a => k a
  | Raise e => Raise e
  end.

Declare Scope py_scope.
Delimit Scope py_scope with py.
Notation "x <- m ;; k" := (bind m (fun x => k))
  (at level 61, m at next level, right associativity) : py_scope.

(** ** Python numbers *)

Module Py.

(** [round_half_even x] is the integer nearest to [x], a tie going to the
    even neighbour: the rounding of Python's [round]. *)
Definition round_half_even (x : R) : Z :=
  let n := Zfloor x in
  let f := x - IZR n in
  if Rlt_dec f (1 / 2) then n
  else if Rlt_dec (1 / 2) f then (n + 1)%Z
  else if Z.even n then n else (n + 1)%Z.

(** [round(x, ndigits)] on a float. *)
Definition round (x : R) (ndigits : nat) : R :=
  IZR (round_half_even (x * 10 ^ ndigits)) / 10 ^ ndigits.

(** [max(a, b)]: the first argument unless the second is greater. *)
Definition max (a b : R) : R := if Rlt_dec a b then b else a.

(** The value of an arithmetic expression: a float, or a complex number.
    Only the type of a complex value matters to this program (it makes
    [round] raise), so its components are not kept. *)
Inductive num : Type :=
| Float (r : R)
| Complex.

(** [x ** y] for floats [x] and a positive exponent [y] that is not an
    integer (the source uses 2.63 and 0.54): a negative base gives a
    complex number. *)
Definition pow (x y : R) : num :=
  if Rlt_dec 0 x then Float (Rpower x y)
  else if Req_dec_T x 0 then Float 0
  else Complex.

Definition mul (a b : num) : num :=
  match a, b with
  | Float x, Float y => Float (x * y)
  | _, _ => Complex
  end.

(** [a / b] with a float divisor. *)
Definition div (a : num) (b : R) : result num :=
  if Req_dec_T b 0 then Raise ZeroDivisionError
  else match a with
       | Float x => Ok (Float (x / b))
       | Complex => Ok Complex
       end.

(** [round(v, ndigits)]: complex numbers have no [__round__]. *)
Definition round_num (v : num) (ndigits : nat) : result R :=
  match v with
  | Float x => Ok (round x ndigits)
  | Complex => Raise TypeError
  end.

(** Travel times: a float that may be [float('inf')]. *)
Inductive time : Type :=
| Finite (r : R)
| Inf.

Definition time_add (a b : time) : time :=
  match a, b with
  | Finite x, Finite y => Finite (x + y)
  | _, _ => Inf
  end.

(** [t - x] for a finite float [x]. *)
Definition time_sub (a : time) (x : R) : time :=
  match a with
  | Finite t => Finite (t - x)
  | Inf => Inf
  end.

(** A [dict] with string keys, as the literal lists its items. *)
Definition dict (V : Type) : Type := list (string * V).

Fixpoint get {V : Type} (d : dict V) (k : string) (default : V) : V :=
  match d with
  | [] => default
  | (k', v) :: d' => if String.eqb k k' then v else get d' k default
  end.

(** [k in d] *)
Fixpoint mem {V : Type} (k : string) (d : dict V) : bool :=
  match d with
  | [] => false
  | (k', _) :: d' => String.eqb k k' || mem k d'
  end.

End Py.

(** ** The tables *)

Open Scope string_scope.

Definition ROUGHNESS_COEFFICIENTS : Py.dict R :=
  [ ("Cast Iron", 100);
    ("Ductile Iron", 110);
    ("Steel", 120);
    ("Galvanized Steel", 110);
    ("Stainless Steel", 140);
    ("Copper", 150);
    ("PVC/Plastic", 155);
    ("Concrete", 120) ].

Definition CORROSION_RATES : Py.dict R :=
  [ ("Cast Iron", 0.1);
    ("Ductile Iron", 0.05);
    ("Steel", 0.2);
    ("Galvanized Steel", 0.15);
    ("Stainless Steel", 0.02);
    ("Copper", 0.01);
    ("PVC/Plastic", 0.0);
    ("Concrete", 0.005) ].

(** ** [calculate_velocity] *)

Definition calculate_velocity (diameter slope roughness : R) : result R :=
  let C := roughness in
  let D_m := diameter in
  let S := slope in
  if Req_dec_T S 0 then Ok 0
  else
    (Q <- Py.div (Py.mul (Py.mul (Py.Float C) (Py.pow D_m 2.63)) (Py.pow S 0.54))
                 278.5 ;;
     let A := PI * (D_m / 2) ^ 2 in
     V <- Py.div Q A ;;
     Py.round_num V 2)%py.

(** ** [calculate_pipe_diameter_reduction] *)

Definition calculate_pipe_diameter_reduction
    (material : string) (age initial_diameter : R) : R :=
  let corrosion_rate := Py.get CORROSION_RATES material 0.1 / 1000 in
  let diameter_loss := 2 * (corrosion_rate * age) in
  let reduced_diameter := Py.max (initial_diameter - diameter_loss) 0.01 in
  Py.round reduced_diameter 4.

(** ** [get_user_input]

    What the user typed, once parsed by [int] and [float]: the prompts and
    the parsing itself are input collection, outside the model. *)

Record inputs : Type := {
  material : string;
  age : Z;
  initial_diameter : R;
  total_distance : R;
  reductions : list (R * R);   (* (new_diameter, reduction_distance) *)
  slopes : list (R * R);       (* (slope_value, slope_distance) *)
  pumps : list (R * R)         (* (pump_flowrate, pump_position) *)
}.

Definition get_user_input (typed : inputs) : inputs :=
  {| material :=
       if negb (Py.mem (material typed) ROUGHNESS_COEFFICIENTS)
       then "Cast Iron" else material typed;
     age := age typed;
     initial_diameter := initial_diameter typed;
     total_distance := total_distance typed;
     reductions := reductions typed;
     slopes := slopes typed;
     pumps := pumps typed |}.

(** ** [main] *)

(** The record written to [water_travel_time.json], without its timestamp. *)
Record data : Type := {
  pipe_material : string;
  pipe_age : Z;
  initial_diameter_meters : R;
  reduced_diameter_meters : R;
  total_distance_meters : R;
  travel_time_seconds : Py.time
}.

(** [slope_distance / velocity if velocity > 0 else float('inf')] *)
Definition section_time (slope_distance velocity : R) : Py.time :=
  if Rlt_dec 0 velocity then Py.Finite (slope_distance / velocity) else Py.Inf.

(** The loop over [slopes]; its state is [(total_time, remaining_distance)]. *)
Fixpoint slopes_loop (current_diameter roughness : R) (slopes : list (R * R))
    (st : Py.time * R) : result (Py.time * R) :=
  match slopes with
  | [] => Ok st
  | (slope, slope_distance) :: rest =>
      (velocity <- calculate_velocity current_diameter slope roughness ;;
       slopes_loop current_diameter roughness rest
         (Py.time_add (fst st) (section_time slope_distance velocity),
          snd st - slope_distance))%py
  end.

(** The loop over [pumps]. *)
Fixpoint pumps_loop (pumps : list (R * R)) (total_time : Py.time) : Py.time :=
  match pumps with
  | [] => total_time
  | (pump_flowrate, pump_position) :: rest =>
      pumps_loop rest (Py.time_sub total_time pump_flowrate)
  end.

(** [slopes[0][0]] *)
Definition first_slope (slopes : list (R * R)) : result R :=
  match slopes with
  | [] => Raise IndexError
  | (slope, _) :: _ => Ok slope
  end.

Definition main (typed : inputs) : result data :=
  let i := get_user_input typed in
  let reduced_diameter :=
    calculate_pipe_diameter_reduction (material i) (IZR (age i))
      (initial_diameter i) in
  let roughness := Py.get ROUGHNESS_COEFFICIENTS (material i) 100 in
  let current_diameter := reduced_diameter in
  (s0 <- first_slope (slopes i) ;;
   current_velocity <- calculate_velocity current_diameter s0 roughness ;;
   st <- slopes_loop current_diameter roughness (slopes i)
           (Py.Finite 0, total_distance i) ;;
   let total_time := pumps_loop (pumps i) (fst st) in
   Ok {| pipe_material := material i;
         pipe_age := age i;
         initial_diameter_meters := initial_diameter i;
         reduced_diameter_meters := reduced_diameter;
         total_distance_meters := total_distance i;
         travel_time_seconds := total_time |})%py.

(** ** Names for what [main] computes on the way *)

(** [reduced_diameter], from the inputs as typed. *)
Definition effective_diameter (typed : inputs) : R :=
  calculate_pipe_diameter_reduction (material (get_user_input typed))
    (IZR (age typed)) (initial_diameter typed).

(** [roughness], from the inputs as typed. *)
Definition roughness_of (typed : inputs) : R :=
  Py.get ROUGHNESS_COEFFICIENTS (material (get_user_input typed)) 100.

(** What the pump loop does to [total_time]: one subtraction per pump, in
    list order, of the pump's flow rate. *)
Definition subtract_flowrates (pumps : list (R * R)) (t : Py.time) : Py.time :=
  fold_left (fun acc pump => Py.time_sub acc (fst pump)) pumps t.

(** ** The specification's formulas

    Used to compare [main] with what the specification words. *)

(** The Hazen-Williams velocity at full precision:
    [C * D^2.63 * S^0.54 / 278.5] divided by [pi * (D/2)^2]. *)
Definition spec_velocity (D S C : R) : R :=
  (C * Rpower D 2.63 * Rpower S 0.54) / 278.5 / (PI * (D / 2) ^ 2).

(** The sum over the segments of length divided by full-precision velocity,
    in route order. *)
Definition spec_total_time (D C : R) (slopes : list (R * R)) : R :=
  fold_left (fun acc seg => acc + snd seg / spec_velocity D (fst seg) C) slopes 0.

(** The same sum with each velocity rounded to two decimals first, a segment
    whose rounded velocity is not positive counting as infinite. *)
Definition rounded_total_time (D C : R) (slopes : list (R * R)) : Py.time :=
  fold_left
    (fun acc seg =>
       Py.time_add acc
         (section_time (snd seg) (Py.round (spec_velocity D (fst seg) C) 2)))
    slopes (Py.Finite 0).

(** The velocity that [calculate_velocity] returns for a positive diameter
    and a slope that is not negative. *)
Definition velocity_value (D S C : R) : R :=
  if Req_dec_T S 0 then 0 else Py.round (spec_velocity D S C) 2.

(** The total of the section times after the loop over [slopes], started
    from [acc]. *)
Definition segments_time (D C : R) (slopes : list (R * R)) (acc : Py.time)
    : Py.time :=
  fold_left
    (fun acc seg =>
       Py.time_add acc (section_time (snd seg) (velocity_value D (fst seg) C)))
    slopes acc.

(** ** Example routes *)

(** A new 1 m Cast Iron pipe with the given segments and pumps. *)
Definition cast_iron_route (slopes pumps : list (R * R)) : inputs :=
  {| material := "Cast Iron";
     age := 0;
     initial_diameter := 1;
     total_distance := 1000;
     reductions := [];
     slopes := slopes;
     pumps := pumps |}.

(** The same inputs with another material typed in. *)
Definition with_material (m : string) (typed : inputs) : inputs :=
  {| material := m;
     age := age typed;
     initial_diameter := initial_diameter typed;
     total_distance := total_distance typed;
     reductions := reductions typed;
     slopes := slopes typed;
     pumps := pumps typed |}.

(** The same inputs with other pumps. *)
Definition with_pumps (ps : list (R * R)) (typed : inputs) : inputs :=
  {| material := material typed;
     age := age typed;
     initial_diameter := initial_diameter typed;
     total_distance := total_distance typed;
     reductions := reductions typed;
     slopes := slopes typed;
     pumps := ps |}.

(** * The rest of the code *)

(** ** [calculate_friction_loss] ([flow_model.py])

    [f * length / diameter] raises on a zero diameter; [2 * g] is not
    zero. *)

Definition calculate_friction_loss
    (diameter length velocity : R) (material : string) : result R :=
  let f := 0.02 in
  let g := 9.81 in
  if Req_dec_T diameter 0 then Raise ZeroDivisionError
  else
    let head_loss := (f * length / diameter) * (velocity ^ 2 / (2 * g)) in
    Ok (Py.round head_loss 4).

(** [a / b] for a float [a] and a divisor that may be complex.  A complex
    divisor of this program is never zero (it is the power of a negative
    float). *)
Definition div_by_num (a : R) (b : Py.num) : result Py.num :=
  match b with
  | Py.Float y => Py.div (Py.Float a) y
  | Py.Complex => Ok Py.Complex
  end.

(** ** [simple_flow.py] *)

Module SimpleFlow.

Definition ROUGHNESS_COEFFICIENTS : Py.dict R :=
  [ ("Cast Iron", 100);
    ("Ductile Iron", 110);
    ("Steel", 120);
    ("Galvanized Steel", 110);
    ("Stainless Steel", 140);
    ("Copper", 150);
    ("PVC/Plastic", 155);
    ("Concrete", 120) ].

Definition CORROSION_RATES : Py.dict R :=
  [ ("Cast Iron", 0.1);
    ("Ductile Iron", 0.05);
    ("Steel", 0.2);
    ("Galvanized Steel", 0.15);
    ("Stainless Steel", 0.02);
    ("Copper", 0.01);
    ("PVC/Plastic", 0.0);
    ("Concrete", 0.005) ].

(** This version has no test of the slope. *)
Definition calculate_velocity (diameter slope roughness : R) : result R :=
  let C := roughness in
  let D_m := diameter in
  let S := slope in
  (Q <- Py.div (Py.mul (Py.mul (Py.Float C) (Py.pow D_m 2.63)) (Py.pow S 0.54))
               278.5 ;;
   let A := PI * (D_m / 2) ^ 2 in
   V <- Py.div Q A ;;
   Py.round_num V 2)%py.

Definition calculate_pipe_diameter_reduction
    (material : string) (age initial_diameter : R) : R :=
  let corrosion_rate := Py.get CORROSION_RATES material 0.1 / 1000 in
  let diameter_loss := 2 * (corrosion_rate * age) in
  let reduced_diameter := Py.max (initial_diameter - diameter_loss) 0.01 in
  Py.round reduced_diameter 4.

(** [None] is Python's [None]. *)
Definition calculate_travel_time (distance velocity : R) : option R :=
  if Rlt_dec 0 velocity then
    let travel_time := distance / velocity in
    Some (Py.round travel_time 2)
  else None.

Record inputs : Type := {
  material : string;
  age : Z;
  initial_diameter : R;
  distance : R;
  slope : R
}.

Definition get_user_input (typed : inputs) : inputs :=
  {| material :=
       if negb (Py.mem (material typed) ROUGHNESS_COEFFICIENTS)
       then "Cast Iron" else material typed;
     age := age typed;
     initial_diameter := initial_diameter typed;
     distance := distance typed;
     slope := slope typed |}.

(** The record written to [water_travel_time.json], without its timestamp. *)
Record data : Type := {
  pipe_material : string;
  pipe_age : Z;
  initial_diameter_meters : R;
  reduced_diameter_meters : R;
  velocity_mps : R;
  travel_distance_meters : R;
  data_slope : R;
  travel_time_seconds : option R
}.

(** The results are printed before the record is written, and the line
    with [travel_time / 60] raises when [travel_time] is [None]. *)
Definition main (typed : inputs) : result data :=
  let i := get_user_input typed in
  let reduced_diameter :=
    calculate_pipe_diameter_reduction (material i) (IZR (age i))
      (initial_diameter i) in
  let roughness := Py.get ROUGHNESS_COEFFICIENTS (material i) 100 in
  (velocity <- calculate_velocity reduced_diameter (slope i) roughness ;;
   let travel_time := calculate_travel_time (distance i) velocity in
   minutes <- match travel_time with
              | Some t => Ok (t / 60)
              | None => Raise TypeError
              end ;;
   Ok {| pipe_material := material i;
         pipe_age := age i;
         initial_diameter_meters := initial_diameter i;
         reduced_diameter_meters := reduced_diameter;
         velocity_mps := velocity;
         travel_distance_meters := distance i;
         data_slope := slope i;
         travel_time_seconds := travel_time |})%py.

End SimpleFlow.

(** ** [corrosion-failure_prediction.py] *)

Module CorrosionFailure.

Definition CORROSION_RATES : Py.dict R :=
  [ ("Cast Iron", 0.1);
    ("Ductile Iron", 0.05);
    ("Steel", 0.2);
    ("Galvanized Steel", 0.15);
    ("Stainless Steel", 0.02);
    ("Copper", 0.01);
    ("PVC/Plastic", 0.0);
    ("Concrete", 0.005) ].

Definition calculate_corrosion_rate (material : string) (age : R) : R :=
  let base_rate := Py.get CORROSION_RATES material 0.1 in
  let age_factor := 1 + (0.02 * age) in
  Py.round (base_rate * age_factor) 4.

(** The result is the string ["Unlimited"] or a number of years. *)
Inductive life : Type :=
| Unlimited
| Years (y : R).

Definition estimate_remaining_life
    (initial_thickness min_thickness corrosion_rate : R) : life :=
  if Rle_dec corrosion_rate 0 then Unlimited
  else
    let remaining_life := (initial_thickness - min_thickness) / corrosion_rate in
    Years (Py.max (Py.round remaining_life 2) 0).

Record inputs : Type := {
  material : string;
  age : Z;
  initial_thickness : R;
  min_thickness : R
}.

Definition get_user_input (typed : inputs) : inputs :=
  {| material :=
       if negb (Py.mem (material typed) CORROSION_RATES)
       then "Cast Iron" else material typed;
     age := age typed;
     initial_thickness := initial_thickness typed;
     min_thickness := min_thickness typed |}.

(** The record written to [pipe_corrosion_data.json], without its
    timestamp. *)
Record data : Type := {
  pipe_material : string;
  pipe_age : Z;
  corrosion_rate_mm_per_year : R;
  initial_thickness_mm : R;
  min_thickness_mm : R;
  remaining_life_years : life
}.

(** [main] up to the record; the plot that follows is display only. *)
Definition main (typed : inputs) : data :=
  let i := get_user_input typed in
  let corrosion_rate := calculate_corrosion_rate (material i) (IZR (age i)) in
  let remaining_life :=
    estimate_remaining_life (initial_thickness i) (min_thickness i)
      corrosion_rate in
  {| pipe_material := material i;
     pipe_age := age i;
     corrosion_rate_mm_per_year := corrosion_rate;
     initial_thickness_mm := initial_thickness i;
     min_thickness_mm := min_thickness i;
     remaining_life_years := remaining_life |}.

End CorrosionFailure.

(** ** [simple_flow-spec_gravity.py]

    The program reads lines from the keyboard.  [lines] is what the user
    types, one string per [input()]; running out of lines is [EOFError],
    the [None] of the functions that read.  Python's [float] on a string is
    a parameter: [parse_float l] is the number, or [None] for
    [ValueError]. *)

Module SpecGravity.

Definition calculate_flow_rate
    (diameter velocity specific_gravity : R) : result (R * R) :=
  let pi := 3.1416 in
  let radius := diameter / 2 in
  let area := pi * radius ^ 2 in
  let flow_rate := area * velocity in
  (adjusted_flow_rate <- div_by_num flow_rate (Py.pow specific_gravity 0.5) ;;
   rounded_adjusted <- Py.round_num adjusted_flow_rate 2 ;;
   Ok (Py.round flow_rate 2, rounded_adjusted))%py.

Definition calculate_travel_time (pipe_length velocity : R) : option R :=
  if Rlt_dec 0 velocity then
    let travel_time := pipe_length / velocity in
    Some (Py.round travel_time 2)
  else None.

(** The record written to [pipe_flow_data.json], without its timestamp. *)
Record data : Type := {
  pipe_diameter_meters : R;
  velocity_mps : R;
  specific_gravity : R;
  flow_rate_m3_per_s : R;
  adjusted_flow_rate_m3_per_s : R;
  pipe_length_meters : R;
  travel_time_seconds : option R
}.

Section Keyboard.

Variable parse_float : string -> option R.

(** The [while True] loop: a line that is not a number, or not a positive
    one, is answered with a message and the next line is read.  The result
    is the value and the lines not yet read. *)
Fixpoint get_positive_float (lines : list string) : option (R * list string) :=
  match lines with
  | [] => None
  | l :: rest =>
      match parse_float l with
      | Some value =>
          if Rlt_dec 0 value then Some (value, rest)
          else get_positive_float rest
      | None => get_positive_float rest
      end
  end.

Definition main (lines : list string) : option (result data) :=
  match get_positive_float lines with
  | None => None
  | Some (diameter, lines1) =>
  match get_positive_float lines1 with
  | None => None
  | Some (velocity, lines2) =>
  match get_positive_float lines2 with
  | None => None
  | Some (specific_gravity, lines3) =>
  match get_positive_float lines3 with
  | None => None
  | Some (pipe_length, _) =>
      Some
        (flows <- calculate_flow_rate diameter velocity specific_gravity ;;
         let travel_time := calculate_travel_time pipe_length velocity in
         Ok {| pipe_diameter_meters := diameter;
               velocity_mps := velocity;
               specific_gravity := specific_gravity;
               flow_rate_m3_per_s := fst flows;
               adjusted_flow_rate_m3_per_s := snd flows;
               pipe_length_meters := pipe_length;
               travel_time_seconds := travel_time |})%py
  end end end end.

End Keyboard.

End SpecGravity.

(** ** [tank-volume-calculator.py] *)

Module TankVolume.

Definition calculate_spherical_volume (diameter : R) : R :=
  let pi := 3.1416 in
  let radius := diameter / 2 in
  let volume := (4 / 3) * pi * (radius ^ 3) in
  volume.

Definition calculate_cylindrical_volume (diameter height : R) : R :=
  let pi := 3.1416 in
  let radius := diameter / 2 in
  let volume := pi * (radius ^ 2) * height in
  volume.

(** The record written to [tank_volume_data.json], without its timestamp:
    [Spherical diameter radius volume] or
    [Cylindrical diameter radius height volume]. *)
Inductive data : Type :=
| Spherical (diameter_meters radius_meters volume_cubic_meters : R)
| Cylindrical (diameter_meters radius_meters height_meters
               volume_cubic_meters : R).

Section Keyboard.

Variable parse_float : string -> option R.

Fixpoint get_positive_float (lines : list string) : option (R * list string) :=
  match lines with
  | [] => None
  | l :: rest =>
      match parse_float l with
      | Some value =>
          if Rlt_dec 0 value then Some (value, rest)
          else get_positive_float rest
      | None => get_positive_float rest
      end
  end.

(** The loop that asks for the type of tank until the line is ["1"] or
    ["2"]. *)
Fixpoint read_choice (lines : list string) : option (string * list string) :=
  match lines with
  | [] => None
  | choice :: rest =>
      if String.eqb choice "1" || String.eqb choice "2" then Some (choice, rest)
      else read_choice rest
  end.

Definition main (lines : list string) : option data :=
  match read_choice lines with
  | None => None
  | Some (choice, lines1) =>
      if String.eqb choice "1" then
        match get_positive_float lines1 with
        | None => None
        | Some (diameter, _) =>
            let volume := calculate_spherical_volume diameter in
            Some (Spherical diameter (diameter / 2) (Py.round volume 2))
        end
      else
        match get_positive_float lines1 with
        | None => None
        | Some (diameter, lines2) =>
            match get_positive_float lines2 with
            | None => None
            | Some (height, _) =>
                let volume := calculate_cylindrical_volume diameter height in
                Some (Cylindrical diameter (diameter / 2) height
                        (Py.round volume 2))
            end
        end
  end.

End Keyboard.

End TankVolume.

(** A reading of the keyboard for the examples, which type only the lines
    ["0"], ["1"], ["2"] and ["abc"]: on these it is Python's [float]. *)
Definition parse_digit (l : string) : option R :=
  if String.eqb l "1" then Some 1
  else if String.eqb l "2" then Some 2
  else if String.eqb l "0" then Some 0
  else None.

(** The inputs of [simple_flow.py] as a route of [flow_model.py]: one
    segment of the given slope over the whole distance, and no pump. *)
Definition single_segment_route (typed : SimpleFlow.inputs) : inputs :=
  {| material := SimpleFlow.material typed;
     age := SimpleFlow.age typed;
     initial_diameter := SimpleFlow.initial_diameter typed;
     total_distance := SimpleFlow.distance typed;
     reductions := [];
     slopes := [(SimpleFlow.slope typed, SimpleFlow.distance typed)];
     pumps := [] |}.

(** * Properties *)

(** ** Decimal rounding *)

Section Rounding.

Lemma round_half_even_near (x : R) (z : Z) :
  IZR z - 1 / 2 < x < IZR z + 1 / 2 -> Py.round_half_even x = z.
Proof.
  intros [Hlo Hhi]. unfold Py.round_half_even.
  pose proof (Zfloor_bound x) as [Hfl Hfu].
  destruct (Rlt_dec (x - IZR (Zfloor x)) (1 / 2)) as [Hf | Hf].
  - assert (Hz1 : (Zfloor x < z + 1)%Z) by (apply lt_IZR; rewrite plus_IZR; lra).
    assert (Hz2 : (z < Zfloor x + 1)%Z) by (apply lt_IZR; rewrite plus_IZR; lra).
    lia.
  - assert (Hz1 : (Zfloor x < z + 1)%Z) by (apply lt_IZR; rewrite plus_IZR; lra).
    assert (Hz2 : (z < Zfloor x + 2)%Z) by (apply lt_IZR; rewrite plus_IZR; lra).
    assert (Hz : z = Zfloor x \/ z = (Zfloor x + 1)%Z) by lia.
    destruct Hz as [Hz | Hz].
    + exfalso. rewrite Hz in Hhi. lra.
    + destruct (Rlt_dec (1 / 2) (x - IZR (Zfloor x))) as [Hg | Hg]; [lia |].
      exfalso. rewrite Hz, plus_IZR in Hlo. lra.
Qed.

Lemma round_half_even_IZR (z : Z) : Py.round_half_even (IZR z) = z.
Proof. apply round_half_even_near. lra. Qed.

(** The rounded integer is within one half of its argument. *)
Lemma round_half_even_bound (x : R) :
  IZR (Py.round_half_even x) - 1 / 2 <= x <= IZR (Py.round_half_even x) + 1 / 2.
Proof.
  unfold Py.round_half_even.
  pose proof (Zfloor_bound x) as [Hfl Hfu].
  destruct (Rlt_dec (x - IZR (Zfloor x)) (1 / 2)) as [Hf | Hf]; [lra |].
  destruct (Rlt_dec (1 / 2) (x - IZR (Zfloor x))) as [Hg | Hg].
  - rewrite plus_IZR. lra.
  - destruct (Z.even (Zfloor x)); [| rewrite plus_IZR]; lra.
Qed.

Lemma round_half_even_mono (x y : R) :
  x <= y -> (Py.round_half_even x <= Py.round_half_even y)%Z.
Proof.
  intros Hxy.
  destruct (Z_le_gt_dec (Py.round_half_even x) (Py.round_half_even y))
    as [Hle | Hgt]; [exact Hle | exfalso].
  pose proof (round_half_even_bound x) as [Hx _].
  pose proof (round_half_even_bound y) as [_ Hy].
  assert (H1 : IZR (Py.round_half_even y) + 1 <= IZR (Py.round_half_even x)).
  { rewrite <- plus_IZR. apply IZR_le. lia. }
  assert (Heq : x = y) by lra.
  rewrite Heq in Hgt. lia.
Qed.

Lemma pow10_pos (n : nat) : 0 < 10 ^ n.
Proof. apply pow_lt. lra. Qed.

Lemma round_mono (x y : R) (n : nat) :
  x <= y -> Py.round x n <= Py.round y n.
Proof.
  intros Hxy. unfold Py.round.
  pose proof (pow10_pos n) as Hp.
  apply Rmult_le_compat_r; [left; apply Rinv_0_lt_compat; exact Hp |].
  apply IZR_le, round_half_even_mono.
  apply Rmult_le_compat_r; lra.
Qed.

(** A number that already has [n] decimals is left as it is. *)
Lemma round_decimal (z : Z) (n : nat) :
  Py.round (IZR z / 10 ^ n) n = IZR z / 10 ^ n.
Proof.
  unfold Py.round. pose proof (pow10_pos n) as Hp.
  replace (IZR z / 10 ^ n * 10 ^ n) with (IZR z) by (field; lra).
  now rewrite round_half_even_IZR.
Qed.

(** Rounding to [n] decimals moves a number by at most half a unit of the
    last place. *)
Lemma round_error (x : R) (n : nat) :
  x - / 2 / 10 ^ n <= Py.round x n <= x + / 2 / 10 ^ n.
Proof.
  unfold Py.round. pose proof (pow10_pos n) as Hp.
  pose proof (round_half_even_bound (x * 10 ^ n)) as [Hlo Hhi].
  set (k := IZR (Py.round_half_even (x * 10 ^ n))) in *.
  assert (Hi : 0 < / 10 ^ n) by (apply Rinv_0_lt_compat; exact Hp).
  split.
  - apply Rmult_le_reg_r with (10 ^ n); [exact Hp |].
    replace ((x - / 2 / 10 ^ n) * 10 ^ n) with (x * 10 ^ n - 1 / 2) by (field; lra).
    replace (k / 10 ^ n * 10 ^ n) with k by (field; lra). lra.
  - apply Rmult_le_reg_r with (10 ^ n); [exact Hp |].
    replace ((x + / 2 / 10 ^ n) * 10 ^ n) with (x * 10 ^ n + 1 / 2) by (field; lra).
    replace (k / 10 ^ n * 10 ^ n) with k by (field; lra). lra.
Qed.

Lemma max_spec (a b : R) : Py.max a b = Rmax a b.
Proof.
  unfold Py.max, Rmax.
  destruct (Rlt_dec a b), (Rle_dec a b); lra.
Qed.

End Rounding.

(** Settles [Py.round x n] when [x], scaled, is strictly within one half of
    the integer [z]. *)
Ltac round_to z :=
  unfold Py.round;
  rewrite (round_half_even_near _ z) by (simpl pow; lra).

(** ** Corrosion: [calculate_pipe_diameter_reduction] *)

Section Corrosion.

Lemma corrosion_rate_nonneg (m : string) : 0 <= Py.get CORROSION_RATES m 0.1.
Proof.
  unfold CORROSION_RATES. cbn [Py.get].
  repeat match goal with
         | |- context [String.eqb m ?k] => destruct (String.eqb m k)
         end; lra.
Qed.

Lemma corrosion_rate_Steel : Py.get CORROSION_RATES "Steel" 0.1 = 0.2.
Proof. reflexivity. Qed.

Lemma diameter_reduction_unfold (m : string) (age d : R) :
  calculate_pipe_diameter_reduction m age d =
  Py.round (Rmax (d - 2 * (Py.get CORROSION_RATES m 0.1 / 1000) * age) 0.01) 4.
Proof.
  unfold calculate_pipe_diameter_reduction. rewrite max_spec.
  do 2 f_equal. ring.
Qed.

Lemma diameter_reduction_Steel_10 :
  calculate_pipe_diameter_reduction "Steel" 10 0.5 = 0.496.
Proof.
  rewrite diameter_reduction_unfold, corrosion_rate_Steel.
  rewrite Rmax_left by lra.
  round_to 4960%Z. simpl pow. lra.
Qed.

(** The floor survives the rounding. *)
Lemma diameter_reduction_floor (m : string) (age d : R) :
  0.01 <= calculate_pipe_diameter_reduction m age d.
Proof.
  rewrite diameter_reduction_unfold.
  replace 0.01 with (Py.round (IZR 100 / 10 ^ 4) 4) at 1
    by (rewrite round_decimal; simpl pow; lra).
  apply round_mono.
  replace (IZR 100 / 10 ^ 4) with 0.01 by (simpl pow; lra).
  apply Rmax_r.
Qed.

End Corrosion.

Section CorrosionClaims.

(** C1, as the code computes it: for every material, every age >= 0 and
    every initial diameter > 0, the effective diameter is
    [max(initial - 2 * (rate / 1000) * age, 0.01)] brought to four
    decimals: a multiple of 0.0001 at most 0.00005 away from it; for
    Steel, age 10 and 0.5 m it is 0.496 m. *)
Theorem effective_diameter_rounded (m : string) (age d : R) :
  0 <= age -> 0 < d ->
  (exists k : Z, calculate_pipe_diameter_reduction m age d = IZR k / 10 ^ 4) /\
  Rmax (d - 2 * (Py.get CORROSION_RATES m 0.1 / 1000) * age) 0.01 - 0.00005
    <= calculate_pipe_diameter_reduction m age d
    <= Rmax (d - 2 * (Py.get CORROSION_RATES m 0.1 / 1000) * age) 0.01 + 0.00005 /\
  calculate_pipe_diameter_reduction "Steel" 10 0.5 = 0.496.
Proof.
  intros _ _. split; [| split].
  - unfold calculate_pipe_diameter_reduction, Py.round. eexists. reflexivity.
  - rewrite diameter_reduction_unfold.
    pose proof (round_error
                  (Rmax (d - 2 * (Py.get CORROSION_RATES m 0.1 / 1000) * age) 0.01)
                  4) as H.
    simpl pow in H. lra.
  - apply diameter_reduction_Steel_10.
Qed.

Lemma effective_diameter_rounded_witness :
  0 <= 10 /\ 0 < 0.5 /\
  Rmax (0.5 - 2 * (Py.get CORROSION_RATES "Steel" 0.1 / 1000) * 10) 0.01 - 0.00005
    <= calculate_pipe_diameter_reduction "Steel" 10 0.5
    <= Rmax (0.5 - 2 * (Py.get CORROSION_RATES "Steel" 0.1 / 1000) * 10) 0.01
       + 0.00005.
Proof.
  split; [lra |]. split; [lra |].
  apply (effective_diameter_rounded "Steel" 10 0.5); lra.
Defined.

(** C1 as stated fails: a Steel pipe of age 10 and initial diameter
    0.50001 m gets 0.496 m, not the unrounded 0.49601 m. *)
Lemma effective_diameter_not_exact :
  0 <= 10 /\ 0 < 0.50001 /\
  calculate_pipe_diameter_reduction "Steel" 10 0.50001 = 0.496 /\
  calculate_pipe_diameter_reduction "Steel" 10 0.50001 <>
    Rmax (0.50001 - 2 * (Py.get CORROSION_RATES "Steel" 0.1 / 1000) * 10) 0.01.
Proof.
  assert (E : calculate_pipe_diameter_reduction "Steel" 10 0.50001 = 0.496).
  { rewrite diameter_reduction_unfold, corrosion_rate_Steel.
    rewrite Rmax_left by lra.
    round_to 4960%Z. simpl pow. lra. }
  repeat split; try lra; try exact E.
  rewrite E, corrosion_rate_Steel, Rmax_left by lra. lra.
Qed.

(** C2, as the code computes it: for every material, every age >= 0 and
    every initial diameter > 0, the effective diameter is at least 0.01
    and at most the greater of the initial diameter and 0.01, rounded to
    four decimals. *)
Theorem effective_diameter_bounds (m : string) (age d : R) :
  0 <= age -> 0 < d ->
  0.01 <= calculate_pipe_diameter_reduction m age d
       <= Py.round (Rmax d 0.01) 4.
Proof.
  intros Hage Hd. split; [apply diameter_reduction_floor |].
  rewrite diameter_reduction_unfold.
  pose proof (corrosion_rate_nonneg m) as Hr.
  set (r := Py.get CORROSION_RATES m 0.1) in *.
  assert (Hloss : 0 <= 2 * (r / 1000) * age).
  { apply Rmult_le_pos; [lra | exact Hage]. }
  apply round_mono. apply Rle_max_compat_r. lra.
Qed.

Lemma effective_diameter_bounds_witness :
  0.01 <= calculate_pipe_diameter_reduction "Steel" 10 0.5
       <= Py.round (Rmax 0.5 0.01) 4.
Proof. apply (effective_diameter_bounds "Steel" 10 0.5); lra. Defined.

(** C2 as stated fails: a pipe of initial diameter 0.005 m is raised to
    the 0.01 m floor, above its initial diameter. *)
Lemma effective_diameter_above_initial :
  0 <= 0 /\ 0 < 0.005 /\
  calculate_pipe_diameter_reduction "Steel" 0 0.005 = 0.01 /\
  ~ calculate_pipe_diameter_reduction "Steel" 0 0.005 <= 0.005.
Proof.
  assert (E : calculate_pipe_diameter_reduction "Steel" 0 0.005 = 0.01).
  { rewrite diameter_reduction_unfold, corrosion_rate_Steel.
    rewrite Rmax_right by lra.
    round_to 100%Z. simpl pow. lra. }
  repeat split; try lra; exact E.
Qed.

End CorrosionClaims.

(** ** Velocity: [calculate_velocity] *)

Section Velocity.

Lemma pipe_area_pos (D : R) : D <> 0 -> 0 < PI * (D / 2) ^ 2.
Proof.
  intros HD. apply Rmult_lt_0_compat; [apply PI_RGT_0 |].
  assert (H : D / 2 <> 0) by lra.
  simpl pow. nra.
Qed.

Lemma calculate_velocity_zero_slope (D C : R) :
  calculate_velocity D 0 C = Ok 0.
Proof.
  unfold calculate_velocity.
  destruct (Req_dec_T 0 0) as [_ | H]; [reflexivity | contradiction].
Qed.

Lemma calculate_velocity_pos_slope (D S C : R) :
  0 < D -> 0 < S ->
  calculate_velocity D S C = Ok (Py.round (spec_velocity D S C) 2).
Proof.
  intros HD HS. unfold calculate_velocity, spec_velocity, Py.pow.
  pose proof (pipe_area_pos D) as HA.
  destruct (Req_dec_T S 0) as [E | _]; [lra |].
  destruct (Rlt_dec 0 D) as [_ | N]; [| contradiction].
  destruct (Rlt_dec 0 S) as [_ | N]; [| contradiction].
  cbn [Py.mul]. unfold Py.div.
  destruct (Req_dec_T 278.5 0) as [E | _]; [lra |].
  cbn [bind].
  destruct (Req_dec_T (PI * (D / 2) ^ 2) 0) as [E | _]; [lra |].
  reflexivity.
Qed.

(** A negative slope makes [S ** 0.54] complex, and [round] rejects it. *)
Lemma calculate_velocity_neg_slope (D S C : R) :
  0 < D -> S < 0 -> calculate_velocity D S C = Raise TypeError.
Proof.
  intros HD HS. unfold calculate_velocity, Py.pow.
  pose proof (pipe_area_pos D) as HA.
  destruct (Req_dec_T S 0) as [E | _]; [lra |].
  destruct (Rlt_dec 0 D) as [_ | N]; [| contradiction].
  destruct (Rlt_dec 0 S) as [P | _]; [lra |].
  destruct (Req_dec_T S 0) as [E | _]; [lra |].
  cbn [Py.mul]. unfold Py.div.
  destruct (Req_dec_T 278.5 0) as [E | _]; [lra |].
  cbn [bind].
  destruct (Req_dec_T (PI * (D / 2) ^ 2) 0) as [E | _]; [lra |].
  reflexivity.
Qed.

Lemma spec_velocity_pos (D S C : R) :
  D <> 0 -> 0 < C -> 0 < spec_velocity D S C.
Proof.
  intros HD HC. unfold spec_velocity.
  pose proof (pipe_area_pos D HD) as HA.
  assert (HD' : 0 < Rpower D 2.63) by apply exp_pos.
  assert (HS' : 0 < Rpower S 0.54) by apply exp_pos.
  apply Rdiv_lt_0_compat; [| exact HA].
  apply Rdiv_lt_0_compat; [| lra].
  apply Rmult_lt_0_compat; [apply Rmult_lt_0_compat |]; assumption.
Qed.

Lemma spec_velocity_increasing (D C s1 s2 : R) :
  0 < D -> 0 < C -> 0 < s1 < s2 ->
  spec_velocity D s1 C < spec_velocity D s2 C.
Proof.
  intros HD HC Hs. unfold spec_velocity.
  assert (HA : 0 < PI * (D / 2) ^ 2) by (apply pipe_area_pos; lra).
  assert (HD' : 0 < Rpower D 2.63) by apply exp_pos.
  assert (Hp : Rpower s1 0.54 < Rpower s2 0.54)
    by (apply Rlt_Rpower_l; lra).
  apply Rmult_lt_compat_r; [apply Rinv_0_lt_compat; exact HA |].
  apply Rmult_lt_compat_r; [lra |].
  apply Rmult_lt_compat_l; [| exact Hp].
  apply Rmult_lt_0_compat; assumption.
Qed.

End Velocity.

(** ** Bounds on the velocity of a 1 m Cast Iron pipe *)

Section VelocityBounds.

Lemma exp_le (x y : R) : x <= y -> exp x <= exp y.
Proof.
  intros [H | H].
  - left. now apply exp_increasing.
  - subst. right. reflexivity.
Qed.

Lemma Rpower_base_1 (y : R) : Rpower 1 y = 1.
Proof. unfold Rpower. now rewrite ln_1, Rmult_0_r, exp_0. Qed.

Lemma ln_nonpos (x : R) : 0 < x <= 1 -> ln x <= 0.
Proof.
  intros [H0 [H1 | H1]].
  - rewrite <- ln_1. left. now apply ln_increasing.
  - subst. rewrite ln_1. lra.
Qed.

(** For a base of at most 1 a larger exponent gives a smaller power. *)
Lemma Rpower_exponent_antitone (x a b : R) :
  0 < x <= 1 -> a <= b -> Rpower x b <= Rpower x a.
Proof.
  intros Hx Hab. unfold Rpower. apply exp_le.
  pose proof (ln_nonpos x Hx). nra.
Qed.

Lemma Rpower_small_slope (S : R) :
  0 < S <= 0.0001 -> Rpower S 0.54 <= 0.01.
Proof.
  intros HS.
  apply Rle_trans with (Rpower 0.0001 0.54).
  { apply Rle_Rpower_l; lra. }
  apply Rle_trans with (Rpower 0.0001 (/ 2)).
  { apply Rpower_exponent_antitone; lra. }
  rewrite Rpower_sqrt by lra.
  right. apply sqrt_lem_1; lra.
Qed.

Lemma Rpower_ge_base (S : R) : 0 < S <= 1 -> S <= Rpower S 0.54.
Proof.
  intros HS. rewrite <- (Rpower_1 S) at 1 by lra.
  apply Rpower_exponent_antitone; lra.
Qed.

Lemma PI_gt_3 : 3 < PI.
Proof. pose proof PI2_3_2. lra. Qed.

(** [spec_velocity 1 S 100] in terms of [S ** 0.54]. *)
Lemma spec_velocity_1_100 (S : R) :
  spec_velocity 1 S 100 = 400 * Rpower S 0.54 / (278.5 * PI).
Proof.
  unfold spec_velocity. rewrite Rpower_base_1.
  pose proof PI_RGT_0. field. lra.
Qed.

(** On a slope of at most 0.0001 the velocity rounds to 0.0. *)
Lemma velocity_rounds_to_zero (S : R) :
  0 < S <= 0.0001 -> Py.round (spec_velocity 1 S 100) 2 = 0.
Proof.
  intros HS. rewrite spec_velocity_1_100.
  pose proof (Rpower_small_slope S HS) as Hp.
  assert (Hp0 : 0 < Rpower S 0.54) by apply exp_pos.
  pose proof PI_gt_3 as Hpi.
  set (p := Rpower S 0.54) in *.
  assert (Hv : 0 < 400 * p / (278.5 * PI) < 0.005).
  { split.
    - apply Rdiv_lt_0_compat; lra.
    - apply Rmult_lt_reg_r with (278.5 * PI); [lra |].
      replace (400 * p / (278.5 * PI) * (278.5 * PI)) with (400 * p)
        by (field; lra).
      nra. }
  unfold Py.round. rewrite (round_half_even_near _ 0%Z).
  - simpl pow. lra.
  - simpl pow. lra.
Qed.

(** On a slope between 0.05 and 1 the rounded velocity is at least 0.01. *)
Lemma velocity_rounds_above (S : R) :
  0.05 <= S <= 1 -> 0.01 <= Py.round (spec_velocity 1 S 100) 2.
Proof.
  intros HS. rewrite spec_velocity_1_100.
  assert (Hp : S <= Rpower S 0.54) by (apply Rpower_ge_base; lra).
  pose proof PI_4 as Hpi4. pose proof PI_RGT_0 as Hpi0.
  set (p := Rpower S 0.54) in *.
  assert (Hv : 0.01 <= 400 * p / (278.5 * PI)).
  { apply Rmult_le_reg_r with (278.5 * PI); [lra |].
    replace (400 * p / (278.5 * PI) * (278.5 * PI)) with (400 * p)
      by (field; lra).
    nra. }
  replace 0.01 with (Py.round (IZR 1 / 10 ^ 2) 2) at 1
    by (rewrite round_decimal; simpl pow; lra).
  apply round_mono. simpl pow. lra.
Qed.

End VelocityBounds.

Section VelocityClaims.

(** C3, as the code has it: for every diameter (so for every diameter
    > 0) and every roughness coefficient, the velocity at a slope of
    exactly 0 is 0, returned without an exception. *)
Theorem velocity_zero_at_zero_slope (D C : R) :
  calculate_velocity D 0 C = Ok 0.
Proof. apply calculate_velocity_zero_slope. Qed.

(** C3 as stated fails below zero: on a slope of -0.01 the call raises
    [TypeError] instead of returning 0. *)
Lemma velocity_negative_slope_raises :
  0 < 0.496 /\ -0.01 <= 0 /\
  calculate_velocity 0.496 (-0.01) 120 = Raise TypeError /\
  calculate_velocity 0.496 (-0.01) 120 <> Ok 0.
Proof.
  assert (E : calculate_velocity 0.496 (-0.01) 120 = Raise TypeError)
    by (apply calculate_velocity_neg_slope; lra).
  repeat split; try lra; try exact E.
  rewrite E. discriminate.
Qed.

(** C7, as the code has it: for a fixed diameter > 0 and roughness > 0 the
    velocity does not decrease when the slope grows: for slopes
    [0 < s1 < s2] both calls return, and the first velocity is at most
    the second. *)
Theorem velocity_monotone_in_slope (D C s1 s2 : R) :
  0 < D -> 0 < C -> 0 < s1 -> s1 < s2 ->
  exists v1 v2,
    calculate_velocity D s1 C = Ok v1 /\
    calculate_velocity D s2 C = Ok v2 /\
    v1 <= v2.
Proof.
  intros HD HC H1 H12.
  exists (Py.round (spec_velocity D s1 C) 2),
         (Py.round (spec_velocity D s2 C) 2).
  split; [apply calculate_velocity_pos_slope; lra |].
  split; [apply calculate_velocity_pos_slope; lra |].
  apply round_mono. left. apply spec_velocity_increasing; lra.
Qed.

Lemma velocity_monotone_in_slope_witness :
  exists v1 v2,
    calculate_velocity 0.496 0.01 120 = Ok v1 /\
    calculate_velocity 0.496 0.02 120 = Ok v2 /\
    v1 <= v2.
Proof. apply (velocity_monotone_in_slope 0.496 120 0.01 0.02); lra. Defined.

(** C7 as stated fails: in a 1 m pipe of roughness 100 the slopes 0.00001
    and 0.0001 both give the velocity 0.0, so the increase is not
    strict. *)
Lemma velocity_not_strictly_increasing :
  0 < 1 /\ 0 < 100 /\ 0 < 0.00001 /\ 0.00001 < 0.0001 /\
  calculate_velocity 1 0.00001 100 = Ok 0 /\
  calculate_velocity 1 0.0001 100 = Ok 0 /\
  ~ (forall v1 v2,
       calculate_velocity 1 0.00001 100 = Ok v1 ->
       calculate_velocity 1 0.0001 100 = Ok v2 ->
       v1 < v2).
Proof.
  assert (E1 : calculate_velocity 1 0.00001 100 = Ok 0).
  { rewrite calculate_velocity_pos_slope by lra.
    f_equal. apply velocity_rounds_to_zero. lra. }
  assert (E2 : calculate_velocity 1 0.0001 100 = Ok 0).
  { rewrite calculate_velocity_pos_slope by lra.
    f_equal. apply velocity_rounds_to_zero. lra. }
  repeat split; try lra; try assumption.
  intros H. specialize (H 0 0 E1 E2). lra.
Qed.

End VelocityClaims.

(** ** Traversal: [main] *)

Section Traversal.

Lemma calculate_velocity_nonneg_slope (D S C : R) :
  0 < D -> 0 <= S ->
  calculate_velocity D S C = Ok (velocity_value D S C).
Proof.
  intros HD HS. unfold velocity_value.
  destruct (Req_dec_T S 0) as [E | N].
  - subst. apply calculate_velocity_zero_slope.
  - apply calculate_velocity_pos_slope; lra.
Qed.

Lemma slopes_loop_ok (D C : R) (slopes : list (R * R)) :
  0 < D ->
  Forall (fun seg => 0 <= fst seg) slopes ->
  forall st,
    slopes_loop D C slopes st =
    Ok (segments_time D C slopes (fst st),
        fold_left (fun rem seg => rem - snd seg) slopes (snd st)).
Proof.
  intros HD Hall. induction Hall as [| [slope len] rest Hs _ IH]; intros st.
  - destruct st. reflexivity.
  - cbn [slopes_loop]. cbn [fst] in Hs.
    rewrite (calculate_velocity_nonneg_slope D slope C HD Hs).
    cbn [bind]. rewrite IH. reflexivity.
Qed.

Lemma effective_diameter_pos (typed : inputs) : 0 < effective_diameter typed.
Proof.
  unfold effective_diameter.
  pose proof (diameter_reduction_floor (material (get_user_input typed))
                (IZR (age typed)) (initial_diameter typed)).
  lra.
Qed.

Lemma pumps_loop_subtract (ps : list (R * R)) (t : Py.time) :
  pumps_loop ps t = subtract_flowrates ps t.
Proof.
  revert t. induction ps as [| [flow pos] rest IH]; intros t.
  - reflexivity.
  - cbn [pumps_loop]. rewrite IH. reflexivity.
Qed.

(** What [main] returns when there is a first segment and no slope is
    negative. *)
Lemma main_ok (typed : inputs) :
  slopes typed <> [] ->
  Forall (fun seg => 0 <= fst seg) (slopes typed) ->
  main typed =
  Ok {| pipe_material := material (get_user_input typed);
        pipe_age := age typed;
        initial_diameter_meters := initial_diameter typed;
        reduced_diameter_meters := effective_diameter typed;
        total_distance_meters := total_distance typed;
        travel_time_seconds :=
          subtract_flowrates (pumps typed)
            (segments_time (effective_diameter typed) (roughness_of typed)
               (slopes typed) (Py.Finite 0)) |}.
Proof.
  intros Hne Hall. unfold main.
  change (calculate_pipe_diameter_reduction _ _ _)
    with (effective_diameter typed).
  change (Py.get ROUGHNESS_COEFFICIENTS _ 100) with (roughness_of typed).
  cbn [get_user_input slopes pumps age initial_diameter total_distance].
  pose proof (effective_diameter_pos typed) as HD.
  destruct (slopes typed) as [| [s0 len0] rest] eqn:Es; [contradiction |].
  cbn [first_slope bind].
  assert (Hs0 : 0 <= s0) by (inversion Hall; assumption).
  rewrite (calculate_velocity_nonneg_slope _ s0 _ HD Hs0). cbn [bind].
  rewrite (slopes_loop_ok _ _ _ HD Hall). cbn [bind fst].
  rewrite pumps_loop_subtract. reflexivity.
Qed.

Lemma subtract_flowrates_Inf (ps : list (R * R)) :
  subtract_flowrates ps Py.Inf = Py.Inf.
Proof.
  unfold subtract_flowrates.
  induction ps as [| p rest IH]; [reflexivity | exact IH].
Qed.

Lemma segments_time_Inf (D C : R) (slopes : list (R * R)) :
  segments_time D C slopes Py.Inf = Py.Inf.
Proof.
  unfold segments_time.
  induction slopes as [| seg rest IH]; [reflexivity | exact IH].
Qed.

Lemma time_add_Inf_r (t : Py.time) : Py.time_add t Py.Inf = Py.Inf.
Proof. destruct t; reflexivity. Qed.

(** One infinite section time makes the whole sum infinite. *)
Lemma segments_time_In_Inf (D C : R) (slopes : list (R * R)) (seg : R * R) :
  In seg slopes ->
  section_time (snd seg) (velocity_value D (fst seg) C) = Py.Inf ->
  forall acc, segments_time D C slopes acc = Py.Inf.
Proof.
  intros Hin Hinf.
  induction slopes as [| seg' rest IH]; intros acc; [contradiction |].
  unfold segments_time. cbn [fold_left].
  destruct Hin as [E | Hin].
  - subst seg'. rewrite Hinf, time_add_Inf_r. apply segments_time_Inf.
  - apply IH. exact Hin.
Qed.

Lemma effective_diameter_cast_iron (ss ps : list (R * R)) :
  effective_diameter (cast_iron_route ss ps) = 1.
Proof.
  unfold effective_diameter. cbn.
  rewrite diameter_reduction_unfold.
  replace (Py.get CORROSION_RATES "Cast Iron" 0.1) with 0.1 by reflexivity.
  rewrite Rmax_left by lra.
  round_to 10000%Z. simpl pow. lra.
Qed.

Lemma roughness_cast_iron (ss ps : list (R * R)) :
  roughness_of (cast_iron_route ss ps) = 100.
Proof. reflexivity. Qed.

(** [calculate_velocity] returns only for slopes that are not negative. *)
Lemma calculate_velocity_ok_nonneg (D S C v : R) :
  0 < D -> calculate_velocity D S C = Ok v -> 0 <= S.
Proof.
  intros HD Hv. destruct (Rlt_dec S 0) as [Hneg | Hnn]; [| lra].
  rewrite (calculate_velocity_neg_slope D S C HD Hneg) in Hv. discriminate.
Qed.

Lemma slopes_loop_returns_nonneg (D C : R) (slopes : list (R * R)) :
  0 < D ->
  forall st st',
    slopes_loop D C slopes st = Ok st' ->
    Forall (fun seg => 0 <= fst seg) slopes.
Proof.
  intros HD. induction slopes as [| [slope len] rest IH]; intros st st' H.
  - constructor.
  - cbn [slopes_loop] in H.
    destruct (calculate_velocity D slope C) as [v | e] eqn:Ev;
      cbn [bind] in H; [| discriminate].
    constructor.
    + cbn [fst]. exact (calculate_velocity_ok_nonneg D slope C v HD Ev).
    + exact (IH _ _ H).
Qed.

(** [main] returns a record only when there is a first segment and no slope
    is negative. *)
Lemma main_returns_valid (typed : inputs) (d : data) :
  main typed = Ok d ->
  slopes typed <> [] /\ Forall (fun seg => 0 <= fst seg) (slopes typed).
Proof.
  unfold main.
  change (calculate_pipe_diameter_reduction _ _ _)
    with (effective_diameter typed).
  cbn [get_user_input slopes pumps age initial_diameter total_distance].
  intros H.
  destruct (slopes typed) as [| seg0 rest] eqn:Es;
    [cbn [first_slope bind] in H; discriminate |].
  split; [discriminate |].
  destruct (first_slope (seg0 :: rest)) as [s0 | e]; cbn [bind] in H;
    [| discriminate].
  destruct (calculate_velocity _ s0 _) as [v0 | e]; cbn [bind] in H;
    [| discriminate].
  destruct (slopes_loop _ _ (seg0 :: rest) _) as [st | e] eqn:El;
    cbn [bind] in H; [| discriminate].
  exact (slopes_loop_returns_nonneg _ _ _ (effective_diameter_pos typed) _ _ El).
Qed.

End Traversal.

Section TraversalClaims.

(** C4, as the code has it: on a route without a negative slope, when the
    velocity of some segment is not greater than 0, that segment's time is
    positive infinity and [main] returns a record whose total travel time
    is positive infinity, whatever the other segments and the pumps are:
    the segment is not skipped. *)
Theorem infinite_segment_makes_total_infinite
    (typed : inputs) (slope len v : R) :
  Forall (fun seg => 0 <= fst seg) (slopes typed) ->
  In (slope, len) (slopes typed) ->
  calculate_velocity (effective_diameter typed) slope (roughness_of typed)
    = Ok v ->
  v <= 0 ->
  section_time len v = Py.Inf /\
  exists d, main typed = Ok d /\ travel_time_seconds d = Py.Inf.
Proof.
  intros Hall Hin Hv Hle.
  assert (Hsec : section_time len v = Py.Inf).
  { unfold section_time. destruct (Rlt_dec 0 v); [lra | reflexivity]. }
  assert (Hne : slopes typed <> []) by (intros E; rewrite E in Hin; exact Hin).
  assert (Hs : 0 <= slope)
    by exact (calculate_velocity_ok_nonneg _ _ _ _
                (effective_diameter_pos typed) Hv).
  rewrite (calculate_velocity_nonneg_slope _ slope _
             (effective_diameter_pos typed) Hs) in Hv.
  injection Hv as Hv.
  split; [exact Hsec |].
  rewrite (main_ok typed Hne Hall).
  eexists. split; [reflexivity |].
  cbn [travel_time_seconds].
  rewrite (segments_time_In_Inf _ _ _ (slope, len) Hin).
  - apply subtract_flowrates_Inf.
  - cbn [fst snd]. rewrite Hv. exact Hsec.
Qed.

(** A 1000 m segment of slope 0 after a sloping one, with a pump. *)
Lemma infinite_segment_makes_total_infinite_witness :
  section_time 1000 0 = Py.Inf /\
  exists d,
    main (cast_iron_route [(0.05, 10); (0, 1000)] [(0.05, 5)]) = Ok d /\
    travel_time_seconds d = Py.Inf.
Proof.
  apply (infinite_segment_makes_total_infinite
           (cast_iron_route [(0.05, 10); (0, 1000)] [(0.05, 5)]) 0 1000 0).
  - cbn [cast_iron_route slopes].
    constructor; [cbn [fst]; lra |]. constructor; [cbn [fst]; lra |].
    constructor.
  - cbn [cast_iron_route slopes]. right. left. reflexivity.
  - apply calculate_velocity_zero_slope.
  - lra.
Defined.

(** C5: the total that [main] returns is the accumulated segment time
    with each pump's flow rate subtracted from it, one subtraction per
    pump in input order; on finite times this is the subtraction of
    reals, and one pump of flow rate 0.05 after 120.0 s gives 119.95 s. *)
Theorem pumps_subtracted_in_order (typed : inputs) :
  slopes typed <> [] ->
  Forall (fun seg => 0 <= fst seg) (slopes typed) ->
  (exists d st,
     slopes_loop (effective_diameter typed) (roughness_of typed)
       (slopes typed) (Py.Finite 0, total_distance typed) = Ok st /\
     main typed = Ok d /\
     travel_time_seconds d =
       fold_left (fun acc pump => Py.time_sub acc (fst pump))
         (pumps typed) (fst st)) /\
  (forall (ps : list (R * R)) (t : R),
     pumps_loop ps (Py.Finite t) =
     Py.Finite (fold_left (fun acc pump => acc - fst pump) ps t)) /\
  (forall position : R,
     pumps_loop [(0.05, position)] (Py.Finite 120.0) = Py.Finite 119.95).
Proof.
  intros Hne Hall. split; [| split].
  - rewrite (main_ok typed Hne Hall).
    rewrite (slopes_loop_ok _ _ _ (effective_diameter_pos typed) Hall).
    do 2 eexists. split; [reflexivity |]. split; reflexivity.
  - intros ps. induction ps as [| [flow pos] rest IH]; intros t.
    + reflexivity.
    + cbn [pumps_loop Py.time_sub fold_left fst]. apply IH.
  - intros position. cbn [pumps_loop Py.time_sub]. f_equal. lra.
Qed.

Lemma pumps_subtracted_in_order_witness :
  exists d,
    main (cast_iron_route [(0.05, 10)] [(0.05, 5)]) = Ok d /\
    travel_time_seconds d =
      Py.time_sub
        (segments_time 1 100 [(0.05, 10)] (Py.Finite 0)) 0.05.
Proof.
  destruct (pumps_subtracted_in_order
              (cast_iron_route [(0.05, 10)] [(0.05, 5)]))
    as [[d [st [Hst [Hmain Ht]]]] _].
  - discriminate.
  - cbn [cast_iron_route slopes]. repeat constructor; cbn [fst]; lra.
  - exists d. split; [exact Hmain |].
    rewrite Ht.
    rewrite (slopes_loop_ok _ _ _
               (effective_diameter_pos _)) in Hst.
    + injection Hst as Hst. rewrite <- Hst.
      rewrite effective_diameter_cast_iron, roughness_cast_iron.
      reflexivity.
    + cbn [cast_iron_route slopes]. repeat constructor; cbn [fst]; lra.
Defined.

End TraversalClaims.

Section RoundedVelocity.

Lemma segments_time_pos_slopes (D C : R) (slopes : list (R * R)) :
  Forall (fun seg => 0 < fst seg) slopes ->
  segments_time D C slopes (Py.Finite 0) = rounded_total_time D C slopes.
Proof.
  unfold segments_time, rounded_total_time.
  generalize (Py.Finite 0).
  induction slopes as [| seg rest IH]; intros acc Hall; [reflexivity |].
  inversion Hall as [| ? ? Hs Hrest]; subst.
  cbn [fold_left]. rewrite IH by exact Hrest.
  unfold velocity_value.
  destruct (Req_dec_T (fst seg) 0) as [E | _]; [lra | reflexivity].
Qed.

Lemma Forall_pos_nonneg (slopes : list (R * R)) :
  Forall (fun seg => 0 < fst seg) slopes ->
  Forall (fun seg => 0 <= fst seg) slopes.
Proof. apply Forall_impl. intros seg H. lra. Qed.

(** C6, as the code has it: for every route whose slopes are all > 0, the
    accumulated total is the sum over the segments, in order, of segment
    length divided by the Hazen-Williams velocity rounded to two
    decimals (infinite for a segment whose rounded velocity is 0.0); the
    total that [main] returns is that sum less the pumps' flow rates. *)
Theorem travel_time_from_rounded_velocity (typed : inputs) :
  slopes typed <> [] ->
  Forall (fun seg => 0 < fst seg) (slopes typed) ->
  (exists remaining,
     slopes_loop (effective_diameter typed) (roughness_of typed)
       (slopes typed) (Py.Finite 0, total_distance typed) =
     Ok (rounded_total_time (effective_diameter typed) (roughness_of typed)
           (slopes typed), remaining)) /\
  (exists d,
     main typed = Ok d /\
     travel_time_seconds d =
       subtract_flowrates (pumps typed)
         (rounded_total_time (effective_diameter typed) (roughness_of typed)
            (slopes typed))).
Proof.
  intros Hne Hpos.
  pose proof (Forall_pos_nonneg _ Hpos) as Hall.
  split.
  - rewrite (slopes_loop_ok _ _ _ (effective_diameter_pos typed) Hall).
    cbn [fst snd]. rewrite (segments_time_pos_slopes _ _ _ Hpos).
    eexists. reflexivity.
  - rewrite (main_ok typed Hne Hall). eexists. split; [reflexivity |].
    cbn [travel_time_seconds].
    now rewrite (segments_time_pos_slopes _ _ _ Hpos).
Qed.

Lemma travel_time_from_rounded_velocity_witness :
  exists d,
    main (cast_iron_route [(0.05, 10); (0.01, 20)] []) = Ok d /\
    travel_time_seconds d =
      rounded_total_time
        (effective_diameter (cast_iron_route [(0.05, 10); (0.01, 20)] []))
        (roughness_of (cast_iron_route [(0.05, 10); (0.01, 20)] []))
        [(0.05, 10); (0.01, 20)].
Proof.
  apply (travel_time_from_rounded_velocity
           (cast_iron_route [(0.05, 10); (0.01, 20)] [])).
  - discriminate.
  - cbn [cast_iron_route slopes]. repeat constructor; cbn [fst]; lra.
Defined.

(** C6 as stated fails: on a 1000 m segment of slope 0.0001 in a new 1 m
    Cast Iron pipe the velocity rounds to 0.0, and the total is positive
    infinity, not the finite 1000 m over the full-precision velocity. *)
Lemma travel_time_not_full_precision :
  Forall (fun seg => 0 < fst seg) [(0.0001, 1000)] /\
  0 < spec_velocity 1 0.0001 100 /\
  exists d,
    main (cast_iron_route [(0.0001, 1000)] []) = Ok d /\
    reduced_diameter_meters d = 1 /\
    travel_time_seconds d = Py.Inf /\
    travel_time_seconds d <>
      Py.Finite (spec_total_time 1 100 [(0.0001, 1000)]).
Proof.
  split; [repeat constructor; cbn [fst]; lra |].
  split; [apply spec_velocity_pos; lra |].
  rewrite main_ok.
  - eexists. split; [reflexivity |].
    cbn [reduced_diameter_meters travel_time_seconds].
    rewrite effective_diameter_cast_iron, roughness_cast_iron.
    split; [reflexivity |].
    assert (E : subtract_flowrates (pumps (cast_iron_route [(0.0001, 1000)] []))
                  (segments_time 1 100
                     (slopes (cast_iron_route [(0.0001, 1000)] []))
                     (Py.Finite 0)) = Py.Inf).
    { cbn [cast_iron_route slopes pumps subtract_flowrates segments_time
             fold_left fst snd].
      unfold velocity_value.
      destruct (Req_dec_T 0.0001 0) as [E | _]; [lra |].
      rewrite velocity_rounds_to_zero by lra.
      unfold section_time.
      destruct (Rlt_dec 0 0) as [H | _]; [lra | reflexivity]. }
    rewrite E. split; [reflexivity | discriminate].
  - discriminate.
  - cbn [cast_iron_route slopes]. repeat constructor; cbn [fst]; lra.
Qed.

End RoundedVelocity.

Section Materials.

Lemma unknown_material_lookups (m : string) :
  Py.mem m ROUGHNESS_COEFFICIENTS = false ->
  Py.get CORROSION_RATES m 0.1 = 0.1 /\
  Py.get ROUGHNESS_COEFFICIENTS m 100 = 100.
Proof.
  unfold ROUGHNESS_COEFFICIENTS, CORROSION_RATES.
  cbn [Py.mem Py.get]. intros H.
  repeat (apply orb_false_iff in H; destruct H as [E H]; rewrite E; clear E).
  split; reflexivity.
Qed.

(** C8: for an input material that is not one of the eight of the table,
    the lookups of both tables give the Cast Iron constants (0.1 mm/yr and
    100), the material is replaced by Cast Iron, the run is the run with
    Cast Iron typed in, and, given a first segment and no negative
    slope, it returns a record, computed with those constants, instead
    of raising. *)
Theorem unknown_material_defaults (typed : inputs) :
  Py.mem (material typed) ROUGHNESS_COEFFICIENTS = false ->
  (Py.get CORROSION_RATES (material typed) 0.1 = 0.1 /\
   Py.get CORROSION_RATES "Cast Iron" 0.1 = 0.1) /\
  (Py.get ROUGHNESS_COEFFICIENTS (material typed) 100 = 100 /\
   Py.get ROUGHNESS_COEFFICIENTS "Cast Iron" 100 = 100) /\
  (forall age d : R,
     calculate_pipe_diameter_reduction (material typed) age d =
     calculate_pipe_diameter_reduction "Cast Iron" age d) /\
  material (get_user_input typed) = "Cast Iron" /\
  main typed = main (with_material "Cast Iron" typed) /\
  (slopes typed <> [] ->
   Forall (fun seg => 0 <= fst seg) (slopes typed) ->
   exists d,
     main typed = Ok d /\
     pipe_material d = "Cast Iron" /\
     reduced_diameter_meters d =
       calculate_pipe_diameter_reduction "Cast Iron" (IZR (age typed))
         (initial_diameter typed) /\
     travel_time_seconds d =
       subtract_flowrates (pumps typed)
         (segments_time (reduced_diameter_meters d) 100 (slopes typed)
            (Py.Finite 0))).
Proof.
  intros Hm.
  destruct (unknown_material_lookups _ Hm) as [Hrate Hrough].
  assert (Hres : material (get_user_input typed) = "Cast Iron").
  { cbn [get_user_input material]. now rewrite Hm. }
  split; [split; [exact Hrate | reflexivity] |].
  split; [split; [exact Hrough | reflexivity] |].
  split.
  { intros a d. unfold calculate_pipe_diameter_reduction.
    now rewrite Hrate. }
  split; [exact Hres |].
  split.
  { unfold main. cbn [get_user_input with_material material age
                      initial_diameter total_distance slopes pumps].
    rewrite Hm. reflexivity. }
  intros Hne Hall. rewrite (main_ok typed Hne Hall).
  eexists. split; [reflexivity |].
  cbn [pipe_material reduced_diameter_meters travel_time_seconds].
  unfold effective_diameter, roughness_of. rewrite Hres.
  repeat split; reflexivity.
Qed.

Lemma unknown_material_defaults_witness :
  Py.mem "Lead" ROUGHNESS_COEFFICIENTS = false /\
  main (with_material "Lead" (cast_iron_route [(0.05, 10)] [])) =
  main (with_material "Cast Iron"
          (with_material "Lead" (cast_iron_route [(0.05, 10)] []))).
Proof.
  split; [reflexivity |].
  apply (unknown_material_defaults
           (with_material "Lead" (cast_iron_route [(0.05, 10)] []))).
  reflexivity.
Defined.

End Materials.

Section Pumps.

Lemma subtract_flowrates_map (ps : list (R * R)) (t : Py.time) :
  subtract_flowrates ps t = fold_left Py.time_sub (map fst ps) t.
Proof.
  unfold subtract_flowrates. revert t.
  induction ps as [| p rest IH]; intros t; [reflexivity |].
  cbn [map fold_left]. apply IH.
Qed.

(** C9: the positions of the pumps have no effect: two runs whose inputs
    differ only in the pump positions (same material, age, diameter,
    distance, reductions and segments, and the same flow rates in the
    same order) give the same result, record or exception. *)
Theorem pump_positions_irrelevant (typed : inputs) (ps1 ps2 : list (R * R)) :
  map fst ps1 = map fst ps2 ->
  main (with_pumps ps1 typed) = main (with_pumps ps2 typed).
Proof.
  intros Hflow. unfold main.
  cbn [get_user_input with_pumps material age initial_diameter
       total_distance slopes pumps].
  destruct (first_slope (slopes typed)) as [s0 | e]; [| reflexivity].
  cbn [bind].
  destruct (calculate_velocity _ s0 _) as [v0 | e]; [| reflexivity].
  cbn [bind].
  destruct (slopes_loop _ _ _ _) as [st | e]; [| reflexivity].
  cbn [bind].
  rewrite !pumps_loop_subtract, !subtract_flowrates_map, Hflow.
  reflexivity.
Qed.

Lemma pump_positions_irrelevant_witness :
  main (with_pumps [(0.05, 5); (0.1, 900)] (cast_iron_route [(0.05, 10)] [])) =
  main (with_pumps [(0.05, 700); (0.1, 0)] (cast_iron_route [(0.05, 10)] [])).
Proof.
  apply (pump_positions_irrelevant (cast_iron_route [(0.05, 10)] [])
           [(0.05, 5); (0.1, 900)] [(0.05, 700); (0.1, 0)]).
  reflexivity.
Defined.

(** C10: no lower bound of zero is enforced: for the new 1 m Cast Iron
    pipe with one 1 m segment of slope 0.05 and one pump of flow rate
    150, the accumulated segment time is finite and below the pump's flow
    rate, and the total that [main] returns is strictly negative. *)
Theorem travel_time_can_be_negative :
  Forall (fun seg => 0 < fst seg /\ 0 < snd seg) [(0.05, 1)] /\
  exists acc remaining d t,
    slopes_loop (effective_diameter (cast_iron_route [(0.05, 1)] [(150, 0)]))
      (roughness_of (cast_iron_route [(0.05, 1)] [(150, 0)]))
      [(0.05, 1)] (Py.Finite 0, 1000) = Ok (Py.Finite acc, remaining) /\
    acc < 150 /\
    main (cast_iron_route [(0.05, 1)] [(150, 0)]) = Ok d /\
    travel_time_seconds d = Py.Finite t /\
    t < 0.
Proof.
  split; [repeat constructor; cbn [fst snd]; lra |].
  pose proof (velocity_rounds_above 0.05 ltac:(lra)) as Hv.
  set (v := Py.round (spec_velocity 1 0.05 100) 2) in *.
  assert (Hvv : velocity_value 1 0.05 100 = v).
  { unfold velocity_value.
    destruct (Req_dec_T 0.05 0) as [E | _]; [lra | reflexivity]. }
  assert (Hsec : section_time 1 v = Py.Finite (1 / v)).
  { unfold section_time. destruct (Rlt_dec 0 v); [reflexivity | lra]. }
  assert (Hacc : 0 + 1 / v < 150).
  { assert (1 / v <= 100); [| lra].
    apply Rmult_le_reg_r with v; [lra |].
    replace (1 / v * v) with 1 by (field; lra). lra. }
  assert (Hall : Forall (fun seg : R * R => 0 <= fst seg)
                   (slopes (cast_iron_route [(0.05, 1)] [(150, 0)]))).
  { cbn [cast_iron_route slopes]. repeat constructor; cbn [fst]; lra. }
  exists (0 + 1 / v), (1000 - 1).
  eexists. exists (0 + 1 / v - 150).
  split.
  { rewrite effective_diameter_cast_iron, roughness_cast_iron.
    rewrite slopes_loop_ok by (try lra; exact Hall).
    cbn [segments_time fold_left fst snd].
    rewrite Hvv, Hsec. reflexivity. }
  split; [exact Hacc |].
  split.
  { rewrite main_ok by (try discriminate; exact Hall). reflexivity. }
  split; [| lra].
  cbn [travel_time_seconds].
  rewrite effective_diameter_cast_iron, roughness_cast_iron.
  cbn [cast_iron_route slopes pumps subtract_flowrates segments_time
       fold_left fst snd].
  rewrite Hvv, Hsec. reflexivity.
Qed.

End Pumps.

(** * Further properties of [flow_model.py] *)

Section CorrosionMore.

(** The value returned has at most four decimals. *)
Lemma diameter_reduction_decimal (m : string) (age d : R) :
  exists k : Z, calculate_pipe_diameter_reduction m age d = IZR k / 10 ^ 4.
Proof.
  unfold calculate_pipe_diameter_reduction, Py.round. eexists. reflexivity.
Qed.

(** An older pipe is never wider: for a fixed material and initial
    diameter the reduced diameter does not increase with age. *)
Theorem diameter_nonincreasing_in_age (m : string) (age1 age2 d : R) :
  age1 <= age2 ->
  calculate_pipe_diameter_reduction m age2 d <=
  calculate_pipe_diameter_reduction m age1 d.
Proof.
  intros Hage. rewrite !diameter_reduction_unfold.
  pose proof (corrosion_rate_nonneg m) as Hr.
  set (r := Py.get CORROSION_RATES m 0.1) in *.
  apply round_mono, Rle_max_compat_r.
  assert (2 * (r / 1000) * age1 <= 2 * (r / 1000) * age2); [| lra].
  apply Rmult_le_compat_l; [lra | exact Hage].
Qed.

Lemma diameter_nonincreasing_in_age_witness :
  calculate_pipe_diameter_reduction "Steel" 30 0.5 <=
  calculate_pipe_diameter_reduction "Steel" 10 0.5.
Proof. apply (diameter_nonincreasing_in_age "Steel" 10 30 0.5). lra. Defined.

(** The reduction is idempotent at age 0: a reduced diameter, taken as the
    initial diameter of a pipe of age 0 of any material, comes back
    unchanged (it has four decimals and is not below the floor). *)
Theorem diameter_reduction_idempotent (m m' : string) (age d : R) :
  calculate_pipe_diameter_reduction m' 0
    (calculate_pipe_diameter_reduction m age d) =
  calculate_pipe_diameter_reduction m age d.
Proof.
  pose proof (diameter_reduction_floor m age d) as Hfloor.
  destruct (diameter_reduction_decimal m age d) as [k Hk].
  set (x := calculate_pipe_diameter_reduction m age d) in *.
  rewrite diameter_reduction_unfold.
  replace (x - 2 * (Py.get CORROSION_RATES m' 0.1 / 1000) * 0) with x by ring.
  rewrite Rmax_left by exact Hfloor.
  rewrite Hk. apply round_decimal.
Qed.

(** A pipe corroded down to the floor or beyond is given exactly 0.01 m. *)
Theorem diameter_clamped_at_floor (m : string) (age d : R) :
  d - 2 * (Py.get CORROSION_RATES m 0.1 / 1000) * age <= 0.01 ->
  calculate_pipe_diameter_reduction m age d = 0.01.
Proof.
  intros Hlow. rewrite diameter_reduction_unfold.
  rewrite Rmax_right by exact Hlow.
  round_to 100%Z. simpl pow. lra.
Qed.

Lemma diameter_clamped_at_floor_witness :
  calculate_pipe_diameter_reduction "Steel" 2000 0.5 = 0.01.
Proof.
  apply (diameter_clamped_at_floor "Steel" 2000 0.5).
  rewrite corrosion_rate_Steel. lra.
Defined.

End CorrosionMore.

Section VelocityMore.

Lemma calculate_velocity_cases (D S C : R) :
  (S = 0 -> calculate_velocity D S C = Ok 0) /\
  (S <> 0 -> D = 0 -> calculate_velocity D S C = Raise ZeroDivisionError) /\
  (S <> 0 -> D <> 0 -> D < 0 \/ S < 0 ->
   calculate_velocity D S C = Raise TypeError) /\
  (0 < S -> 0 < D ->
   calculate_velocity D S C = Ok (Py.round (spec_velocity D S C) 2)).
Proof.
  split; [intros ->; apply calculate_velocity_zero_slope |].
  split; [| split].
  - intros HS HD. subst D. unfold calculate_velocity, Py.pow, Py.div.
    destruct (Req_dec_T S 0) as [E | _]; [contradiction |].
    destruct (Req_dec_T 278.5 0) as [E | _]; [lra |].
    assert (HA : PI * (0 / 2) ^ 2 = 0) by (simpl pow; lra).
    destruct (Rlt_dec 0 0) as [H | _]; [lra |].
    destruct (Req_dec_T 0 0) as [_ | N]; [| contradiction].
    destruct (Rlt_dec 0 S) as [P | N];
      [| destruct (Req_dec_T S 0) as [E | _]; [contradiction |]];
      cbn [Py.mul bind];
      destruct (Req_dec_T (PI * (0 / 2) ^ 2) 0) as [_ | N']; try reflexivity;
      contradiction.
  - intros HS HD Hneg. unfold calculate_velocity, Py.pow, Py.div.
    pose proof (pipe_area_pos D HD) as HA.
    destruct (Req_dec_T S 0) as [E | _]; [contradiction |].
    destruct (Req_dec_T 278.5 0) as [E | _]; [lra |].
    destruct (Rlt_dec 0 D) as [PD | ND];
      [| destruct (Req_dec_T D 0) as [E | _]; [contradiction |]];
      (destruct (Rlt_dec 0 S) as [PS | NS];
       [| destruct (Req_dec_T S 0) as [E | _]; [contradiction |]]);
      try (exfalso; lra);
      cbn [Py.mul bind];
      (destruct (Req_dec_T (PI * (D / 2) ^ 2) 0) as [E | _]; [lra |]);
      reflexivity.
  - intros HS HD. apply calculate_velocity_pos_slope; assumption.
Qed.

(** When [calculate_velocity] returns and when it raises: it returns 0 on
    a zero slope whatever the diameter; on another slope a zero diameter
    raises [ZeroDivisionError], a negative diameter or slope raises too,
    and a velocity is returned only when diameter and slope are both
    positive. *)
Theorem calculate_velocity_outcome (D S C : R) :
  (S = 0 -> calculate_velocity D S C = Ok 0) /\
  (S <> 0 -> D = 0 -> calculate_velocity D S C = Raise ZeroDivisionError) /\
  (S <> 0 -> D < 0 \/ S < 0 -> exists e, calculate_velocity D S C = Raise e) /\
  (forall v, calculate_velocity D S C = Ok v -> S = 0 \/ (0 < D /\ 0 < S)).
Proof.
  destruct (calculate_velocity_cases D S C) as [H0 [HZ [HT HP]]].
  split; [exact H0 |]. split; [exact HZ |]. split.
  - intros HS Hneg. destruct (Req_dec_T D 0) as [ED | ND].
    + eexists. exact (HZ HS ED).
    + eexists. exact (HT HS ND Hneg).
  - intros v Hv. destruct (Req_dec_T S 0) as [ES | NS]; [left; exact ES |].
    right. destruct (Req_dec_T D 0) as [ED | ND].
    { rewrite (HZ NS ED) in Hv. discriminate. }
    destruct (Rlt_dec 0 D) as [PD | NPD];
      [| rewrite (HT NS ND ltac:(lra)) in Hv; discriminate].
    destruct (Rlt_dec 0 S) as [PS | NPS];
      [| rewrite (HT NS ND ltac:(lra)) in Hv; discriminate].
    split; assumption.
Qed.

Lemma spec_velocity_nonneg (D S C : R) :
  D <> 0 -> 0 <= C -> 0 <= spec_velocity D S C.
Proof.
  intros HD [HC | HC].
  - left. apply spec_velocity_pos; assumption.
  - subst C. unfold spec_velocity, Rdiv. rewrite !Rmult_0_l. lra.
Qed.

Lemma round_0 (n : nat) : Py.round 0 n = 0.
Proof.
  replace 0 with (IZR 0 / 10 ^ n) at 1
    by (pose proof (pow10_pos n); field; lra).
  rewrite round_decimal. pose proof (pow10_pos n). field. lra.
Qed.

(** A velocity that [calculate_velocity] returns for a roughness that is
    not negative is itself not negative, and has at most two decimals: the
    test [velocity > 0] of the callers fails only on 0. *)
Theorem velocity_nonnegative (D S C v : R) :
  0 <= C ->
  calculate_velocity D S C = Ok v ->
  0 <= v /\ exists k : Z, v = IZR k / 10 ^ 2.
Proof.
  intros HC Hv.
  destruct (calculate_velocity_cases D S C) as [H0 [HZ [HT HP]]].
  destruct (Req_dec_T S 0) as [ES | NS].
  { rewrite (H0 ES) in Hv. injection Hv as <-.
    split; [lra |]. exists 0%Z. simpl pow. lra. }
  destruct (Req_dec_T D 0) as [ED | ND].
  { rewrite (HZ NS ED) in Hv. discriminate. }
  destruct (Rlt_dec 0 D) as [PD | NPD];
    [| rewrite (HT NS ND ltac:(lra)) in Hv; discriminate].
  destruct (Rlt_dec 0 S) as [PS | NPS];
    [| rewrite (HT NS ND ltac:(lra)) in Hv; discriminate].
  rewrite (HP PS PD) in Hv. injection Hv as <-.
  split.
  - rewrite <- (round_0 2). apply round_mono.
    apply spec_velocity_nonneg; lra.
  - unfold Py.round. eexists. reflexivity.
Qed.

Lemma velocity_nonnegative_witness :
  0 <= 0 /\ exists k : Z, 0 = IZR k / 10 ^ 2.
Proof.
  apply (velocity_nonnegative 0.496 0 120 0).
  - lra.
  - apply calculate_velocity_zero_slope.
Defined.

(** A smoother pipe is not slower: for a positive diameter and slope the
    velocity does not decrease when the roughness coefficient grows. *)
Theorem velocity_monotone_in_roughness (D S C1 C2 : R) :
  0 < D -> 0 < S -> C1 <= C2 ->
  exists v1 v2,
    calculate_velocity D S C1 = Ok v1 /\
    calculate_velocity D S C2 = Ok v2 /\
    v1 <= v2.
Proof.
  intros HD HS HC.
  exists (Py.round (spec_velocity D S C1) 2),
         (Py.round (spec_velocity D S C2) 2).
  split; [apply calculate_velocity_pos_slope; assumption |].
  split; [apply calculate_velocity_pos_slope; assumption |].
  apply round_mono. unfold spec_velocity.
  assert (HA : 0 < PI * (D / 2) ^ 2) by (apply pipe_area_pos; lra).
  assert (HD' : 0 < Rpower D 2.63) by apply exp_pos.
  assert (HS' : 0 < Rpower S 0.54) by apply exp_pos.
  apply Rmult_le_compat_r; [left; apply Rinv_0_lt_compat; exact HA |].
  apply Rmult_le_compat_r; [lra |].
  apply Rmult_le_compat_r; [lra |].
  apply Rmult_le_compat_r; [lra | exact HC].
Qed.

Lemma velocity_monotone_in_roughness_witness :
  exists v1 v2,
    calculate_velocity 0.496 0.01 100 = Ok v1 /\
    calculate_velocity 0.496 0.01 155 = Ok v2 /\
    v1 <= v2.
Proof. apply (velocity_monotone_in_roughness 0.496 0.01 100 155); lra. Defined.

End VelocityMore.

Section TraversalMore.

Lemma slopes_loop_negative_slope (D C : R) (slopes : list (R * R)) :
  0 < D ->
  Exists (fun seg => fst seg < 0) slopes ->
  forall st, slopes_loop D C slopes st = Raise TypeError.
Proof.
  intros HD Hex. induction slopes as [| [slope len] rest IH]; intros st.
  - inversion Hex.
  - cbn [slopes_loop].
    destruct (Rlt_dec slope 0) as [Hneg | Hnn].
    + rewrite (calculate_velocity_neg_slope D slope C HD Hneg). reflexivity.
    + rewrite (calculate_velocity_nonneg_slope D slope C HD ltac:(lra)).
      cbn [bind]. apply IH.
      inversion Hex as [? ? Hh | ? ? Ht]; subst; [cbn [fst] in Hh; lra | exact Ht].
Qed.

Lemma main_no_segment (typed : inputs) :
  slopes typed = [] -> main typed = Raise IndexError.
Proof.
  intros E. unfold main. cbn [get_user_input slopes]. rewrite E. reflexivity.
Qed.

Lemma main_negative_slope (typed : inputs) :
  slopes typed <> [] ->
  Exists (fun seg => fst seg < 0) (slopes typed) ->
  main typed = Raise TypeError.
Proof.
  intros Hne Hex. unfold main.
  change (calculate_pipe_diameter_reduction _ _ _)
    with (effective_diameter typed).
  cbn [get_user_input slopes pumps age initial_diameter total_distance].
  pose proof (effective_diameter_pos typed) as HD.
  destruct (slopes typed) as [| [s0 len0] rest] eqn:Es; [contradiction |].
  cbn [first_slope bind].
  destruct (Rlt_dec s0 0) as [H0 | H0].
  - rewrite (calculate_velocity_neg_slope _ s0 _ HD H0). reflexivity.
  - rewrite (calculate_velocity_nonneg_slope _ s0 _ HD ltac:(lra)).
    cbn [bind]. rewrite (slopes_loop_negative_slope _ _ _ HD Hex).
    reflexivity.
Qed.

Lemma slopes_valid_or_negative (slopes : list (R * R)) :
  Forall (fun seg => 0 <= fst seg) slopes \/
  Exists (fun seg => fst seg < 0) slopes.
Proof.
  destruct (Forall_Exists_dec (fun seg : R * R => 0 <= fst seg)
              (fun seg => Rle_dec 0 (fst seg)) slopes) as [Hall | Hex].
  - left. exact Hall.
  - right. eapply Exists_impl; [| exact Hex]. intros a Ha. cbn beta in Ha. lra.
Qed.

(** When [main] returns and when it raises: it raises without a segment
    and when some slope is negative, so a record is returned only for a
    route with a first segment and no negative slope; and it never raises
    [ZeroDivisionError], the diameter being kept above zero and the
    division by the velocity being guarded. *)
Theorem main_outcome (typed : inputs) :
  (slopes typed = [] -> exists e, main typed = Raise e) /\
  (Exists (fun seg => fst seg < 0) (slopes typed) ->
   exists e, main typed = Raise e) /\
  (forall d,
     main typed = Ok d ->
     slopes typed <> [] /\ Forall (fun seg => 0 <= fst seg) (slopes typed)) /\
  main typed <> Raise ZeroDivisionError.
Proof.
  split; [intros E; eexists; apply main_no_segment; exact E |].
  split.
  { intros Hex. eexists. apply main_negative_slope; [| exact Hex].
    intros E. rewrite E in Hex. inversion Hex. }
  split; [apply main_returns_valid |].
  destruct (slopes typed) as [| seg rest] eqn:Es.
  - rewrite main_no_segment by exact Es. discriminate.
  - assert (Hne : slopes typed <> []) by (rewrite Es; discriminate).
    destruct (slopes_valid_or_negative (slopes typed)) as [Hall | Hex].
    + rewrite (main_ok typed Hne Hall). discriminate.
    + rewrite (main_negative_slope typed Hne Hex). discriminate.
Qed.

(** The diameter reductions typed in are never used, and the total distance
    is only copied into the record: two runs that differ only in these
    give the same exception, or records that agree on every field except
    that each carries its own total distance. *)
Theorem reductions_and_distance_unused (t1 t2 : inputs) :
  material t1 = material t2 ->
  age t1 = age t2 ->
  initial_diameter t1 = initial_diameter t2 ->
  slopes t1 = slopes t2 ->
  pumps t1 = pumps t2 ->
  match main t1, main t2 with
  | Ok d1, Ok d2 =>
      pipe_material d1 = pipe_material d2 /\
      pipe_age d1 = pipe_age d2 /\
      initial_diameter_meters d1 = initial_diameter_meters d2 /\
      reduced_diameter_meters d1 = reduced_diameter_meters d2 /\
      travel_time_seconds d1 = travel_time_seconds d2 /\
      total_distance_meters d1 = total_distance t1 /\
      total_distance_meters d2 = total_distance t2
  | Raise e1, Raise e2 => e1 = e2
  | _, _ => False
  end.
Proof.
  destruct t1 as [m1 a1 d1 td1 r1 s1 p1], t2 as [m2 a2 d2 td2 r2 s2 p2].
  cbn [material age initial_diameter slopes pumps total_distance].
  intros <- <- <- <- <-.
  destruct s1 as [| seg rest].
  - rewrite !main_no_segment by reflexivity. reflexivity.
  - destruct (slopes_valid_or_negative (seg :: rest)) as [Hall | Hex].
    + rewrite !main_ok by (cbn [slopes]; try discriminate; exact Hall).
      cbn. repeat split; reflexivity.
    + rewrite !main_negative_slope
        by (cbn [slopes]; try discriminate; exact Hex).
      reflexivity.
Qed.

(** Two runs on the same sloping segment: one with no reduction and a
    total distance of 1000, one with a reduction typed in and a total
    distance of 5. *)
Lemma reductions_and_distance_unused_witness :
  exists d1 d2,
    main (cast_iron_route [(0.05, 10)] [(0.05, 5)]) = Ok d1 /\
    main {| material := "Cast Iron"; age := 0; initial_diameter := 1;
            total_distance := 5; reductions := [(0.5, 2)];
            slopes := [(0.05, 10)]; pumps := [(0.05, 5)] |} = Ok d2 /\
    reduced_diameter_meters d1 = reduced_diameter_meters d2 /\
    travel_time_seconds d1 = travel_time_seconds d2 /\
    total_distance_meters d1 = 1000 /\
    total_distance_meters d2 = 5.
Proof.
  pose proof (reductions_and_distance_unused
                (cast_iron_route [(0.05, 10)] [(0.05, 5)])
                {| material := "Cast Iron"; age := 0; initial_diameter := 1;
                   total_distance := 5; reductions := [(0.5, 2)];
                   slopes := [(0.05, 10)]; pumps := [(0.05, 5)] |}
                eq_refl eq_refl eq_refl eq_refl eq_refl) as H.
  assert (Hall : Forall (fun seg : R * R => 0 <= fst seg) [(0.05, 10)]).
  { constructor; [cbn [fst]; lra | constructor]. }
  rewrite (main_ok (cast_iron_route [(0.05, 10)] [(0.05, 5)])) in H |- *
    by (cbn [cast_iron_route slopes]; try discriminate; exact Hall).
  rewrite (main_ok {| material := "Cast Iron"; age := 0; initial_diameter := 1;
                      total_distance := 5; reductions := [(0.5, 2)];
                      slopes := [(0.05, 10)]; pumps := [(0.05, 5)] |}) in H |- *
    by (cbn [slopes]; try discriminate; exact Hall).
  destruct H as [_ [_ [_ [Hr [Ht [H1 H2]]]]]].
  do 2 eexists. split; [reflexivity |]. split; [reflexivity |].
  split; [exact Hr |]. split; [exact Ht |]. split; [exact H1 | exact H2].
Defined.

End TraversalMore.

Section NegativeSlopeRoute.

(** C4 as stated fails: on the route of a 1000 m segment of slope 0
    followed by a 10 m segment of slope -0.01, the first segment has
    velocity 0, yet [main] raises [TypeError] on the second and returns no
    total at all. *)
Lemma infinite_segment_then_negative_slope :
  In (0, 1000) (slopes (cast_iron_route [(0, 1000); (-0.01, 10)] [])) /\
  calculate_velocity
    (effective_diameter (cast_iron_route [(0, 1000); (-0.01, 10)] []))
    0 (roughness_of (cast_iron_route [(0, 1000); (-0.01, 10)] [])) = Ok 0 /\
  0 <= 0 /\
  main (cast_iron_route [(0, 1000); (-0.01, 10)] []) = Raise TypeError /\
  ~ (exists d,
       main (cast_iron_route [(0, 1000); (-0.01, 10)] []) = Ok d /\
       travel_time_seconds d = Py.Inf).
Proof.
  assert (E : main (cast_iron_route [(0, 1000); (-0.01, 10)] [])
              = Raise TypeError).
  { apply main_negative_slope.
    - cbn [cast_iron_route slopes]. discriminate.
    - cbn [cast_iron_route slopes].
      apply Exists_cons_tl, Exists_cons_hd. cbn [fst]. lra. }
  split; [cbn [cast_iron_route slopes]; left; reflexivity |].
  split; [apply calculate_velocity_zero_slope |].
  split; [lra |].
  split; [exact E |].
  intros [d [Hd _]]. rewrite E in Hd. discriminate.
Qed.

End NegativeSlopeRoute.

Section FiniteTotal.

Lemma section_time_cases (len v : R) :
  (0 < v /\ section_time len v = Py.Finite (len / v)) \/
  (v <= 0 /\ section_time len v = Py.Inf).
Proof.
  unfold section_time. destruct (Rlt_dec 0 v); [left | right]; split;
    try reflexivity; lra.
Qed.

Lemma segments_time_finite (D C : R) (slopes : list (R * R)) :
  Forall (fun seg => 0 < velocity_value D (fst seg) C) slopes ->
  forall acc : R,
    segments_time D C slopes (Py.Finite acc) =
    Py.Finite
      (fold_left (fun a seg => a + snd seg / velocity_value D (fst seg) C)
         slopes acc).
Proof.
  intros Hall. induction Hall as [| seg rest Hv _ IH]; intros acc.
  - reflexivity.
  - unfold segments_time in *. cbn [fold_left].
    destruct (section_time_cases (snd seg) (velocity_value D (fst seg) C))
      as [[_ E] | [Hle _]]; [| lra].
    rewrite E. cbn [Py.time_add]. apply IH.
Qed.

Lemma subtract_flowrates_finite (ps : list (R * R)) (t : R) :
  subtract_flowrates ps (Py.Finite t) =
  Py.Finite (fold_left (fun a pump => a - fst pump) ps t).
Proof.
  unfold subtract_flowrates. revert t.
  induction ps as [| p rest IH]; intros t; [reflexivity |].
  cbn [fold_left Py.time_sub]. apply IH.
Qed.

(** The total is infinite only because of a velocity that is not
    positive: a record that [main] returns has a finite travel time
    exactly when [calculate_velocity] gives a positive velocity on every
    segment. *)
Theorem finite_total_iff_positive_velocities (typed : inputs) (d : data) :
  main typed = Ok d ->
  (exists t, travel_time_seconds d = Py.Finite t) <->
  Forall
    (fun seg =>
       exists v,
         calculate_velocity (effective_diameter typed) (fst seg)
           (roughness_of typed) = Ok v /\ 0 < v)
    (slopes typed).
Proof.
  intros Hd. destruct (main_returns_valid typed d Hd) as [Hne Hall].
  pose proof (effective_diameter_pos typed) as HD.
  rewrite (main_ok typed Hne Hall) in Hd. injection Hd as Hd.
  rewrite <- Hd. cbn [travel_time_seconds]. clear Hd d.
  set (D := effective_diameter typed) in *.
  set (C := roughness_of typed) in *.
  split.
  - intros [t Ht]. rewrite Forall_forall. intros [slope len] Hin.
    assert (Hs : 0 <= slope)
      by (rewrite Forall_forall in Hall; apply (Hall (slope, len) Hin)).
    exists (velocity_value D slope C). cbn [fst].
    split; [apply calculate_velocity_nonneg_slope; assumption |].
    destruct (section_time_cases len (velocity_value D slope C))
      as [[Hpos _] | [_ Hinf]]; [exact Hpos | exfalso].
    rewrite (segments_time_In_Inf D C _ (slope, len) Hin Hinf) in Ht.
    rewrite subtract_flowrates_Inf in Ht. discriminate.
  - intros Hpos.
    assert (Hvv : Forall (fun seg => 0 < velocity_value D (fst seg) C)
                    (slopes typed)).
    { rewrite Forall_forall in *. intros seg Hin.
      destruct (Hpos seg Hin) as [v [Hv Hv0]].
      rewrite (calculate_velocity_nonneg_slope D (fst seg) C HD (Hall seg Hin))
        in Hv.
      injection Hv as ->. exact Hv0. }
    rewrite (segments_time_finite D C _ Hvv), subtract_flowrates_finite.
    eexists. reflexivity.
Qed.

Lemma finite_total_iff_positive_velocities_witness :
  exists d,
    main (cast_iron_route [(0, 1000)] []) = Ok d /\
    ~ exists t, travel_time_seconds d = Py.Finite t.
Proof.
  assert (E : exists d, main (cast_iron_route [(0, 1000)] []) = Ok d).
  { rewrite main_ok.
    - eexists. reflexivity.
    - discriminate.
    - cbn [cast_iron_route slopes]. constructor; [cbn [fst]; lra | constructor]. }
  destruct E as [d Hd]. exists d. split; [exact Hd |].
  intros [t Ht].
  pose proof (proj1 (finite_total_iff_positive_velocities _ d Hd)
                (ex_intro _ t Ht)) as Hall.
  inversion Hall as [| ? ? [v [Hv Hpos]] _]; subst.
  cbn [fst] in Hv. rewrite calculate_velocity_zero_slope in Hv.
  injection Hv as <-. lra.
Defined.

End FiniteTotal.

Section UserInput.

Lemma tables_same_keys (m : string) :
  Py.mem m ROUGHNESS_COEFFICIENTS = Py.mem m CORROSION_RATES.
Proof. reflexivity. Qed.

(** After [get_user_input] the material is always a key of both tables, so
    the defaults of the two [.get] calls of [main] are never used; a
    material of the table is kept as typed, and resolving twice changes
    nothing more. *)
Theorem get_user_input_material_known (typed : inputs) :
  Py.mem (material (get_user_input typed)) ROUGHNESS_COEFFICIENTS = true /\
  Py.mem (material (get_user_input typed)) CORROSION_RATES = true /\
  (Py.mem (material typed) ROUGHNESS_COEFFICIENTS = true ->
   material (get_user_input typed) = material typed) /\
  get_user_input (get_user_input typed) = get_user_input typed.
Proof.
  assert (Hk : Py.mem (material (get_user_input typed)) ROUGHNESS_COEFFICIENTS
               = true).
  { cbn [get_user_input material].
    destruct (Py.mem (material typed) ROUGHNESS_COEFFICIENTS) eqn:E;
      cbn [negb]; [exact E | reflexivity]. }
  split; [exact Hk |].
  split; [rewrite <- tables_same_keys; exact Hk |].
  split.
  - intros E. cbn [get_user_input material]. rewrite E. reflexivity.
  - unfold get_user_input at 1.
    cbn [age initial_diameter total_distance reductions slopes pumps
         get_user_input].
    change (material (get_user_input typed)) with
      (if negb (Py.mem (material typed) ROUGHNESS_COEFFICIENTS)
       then "Cast Iron" else material typed) in Hk |- *.
    rewrite Hk. reflexivity.
Qed.

End UserInput.

Section FrictionLoss.

(** [calculate_friction_loss] raises [ZeroDivisionError] exactly on a zero
    diameter, and raises nothing else. *)
Theorem friction_loss_zero_diameter (D L v : R) (m : string) :
  (calculate_friction_loss D L v m = Raise ZeroDivisionError <-> D = 0) /\
  (D <> 0 -> exists h, calculate_friction_loss D L v m = Ok h).
Proof.
  unfold calculate_friction_loss.
  destruct (Req_dec_T D 0) as [E | N].
  - split; [split; [intros _; exact E | reflexivity] | contradiction].
  - split; [split; [discriminate | contradiction] |].
    intros _. eexists. reflexivity.
Qed.

(** For a positive diameter and a length that is not negative the head loss
    is not negative, does not decrease with the length, and depends
    neither on the material nor on the direction of the velocity. *)
Theorem friction_loss_nonneg (D L L' v : R) (m m' : string) :
  0 < D -> 0 <= L -> L <= L' ->
  exists h h',
    calculate_friction_loss D L v m = Ok h /\
    calculate_friction_loss D L (- v) m' = Ok h /\
    calculate_friction_loss D L' v m = Ok h' /\
    0 <= h <= h'.
Proof.
  intros HD HL HL'. unfold calculate_friction_loss.
  destruct (Req_dec_T D 0) as [E | _]; [lra |].
  do 2 eexists. split; [reflexivity |]. split; [| split; [reflexivity |]].
  - do 2 f_equal. simpl pow. field. lra.
  - assert (Hk : 0 <= v ^ 2 / (2 * 9.81)).
    { apply Rmult_le_pos; [simpl pow; nra | left; apply Rinv_0_lt_compat; lra]. }
    assert (Hq : 0 <= 0.02 * L / D <= 0.02 * L' / D).
    { split.
      - apply Rmult_le_pos; [lra | left; apply Rinv_0_lt_compat; exact HD].
      - apply Rmult_le_compat_r; [left; apply Rinv_0_lt_compat; exact HD | lra]. }
    split.
    + rewrite <- (round_0 4). apply round_mono.
      apply Rmult_le_pos; [apply Hq | exact Hk].
    + apply round_mono. apply Rmult_le_compat_r; [exact Hk | apply Hq].
Qed.

Lemma friction_loss_nonneg_witness :
  exists h h',
    calculate_friction_loss 0.496 100 1.5 "Steel" = Ok h /\
    calculate_friction_loss 0.496 100 (Ropp 1.5) "Copper" = Ok h /\
    calculate_friction_loss 0.496 250 1.5 "Steel" = Ok h' /\
    0 <= h <= h'.
Proof.
  apply (friction_loss_nonneg 0.496 100 250 1.5 "Steel" "Copper"); lra.
Defined.

End FrictionLoss.

(** * [simple_flow.py] *)

Section SimpleFlowProperties.

Lemma simple_diameter_reduction_same (m : string) (age d : R) :
  SimpleFlow.calculate_pipe_diameter_reduction m age d =
  calculate_pipe_diameter_reduction m age d.
Proof. reflexivity. Qed.

Lemma simple_velocity_nonzero_slope (D S C : R) :
  S <> 0 ->
  SimpleFlow.calculate_velocity D S C = calculate_velocity D S C.
Proof.
  intros HS. unfold calculate_velocity, SimpleFlow.calculate_velocity.
  destruct (Req_dec_T S 0) as [E | _]; [contradiction | reflexivity].
Qed.

Lemma simple_velocity_zero_slope (D C : R) :
  0 < D -> SimpleFlow.calculate_velocity D 0 C = Ok 0.
Proof.
  intros HD. unfold SimpleFlow.calculate_velocity, Py.pow, Py.div.
  pose proof (pipe_area_pos D ltac:(lra)) as HA.
  destruct (Rlt_dec 0 D) as [_ | N]; [| contradiction].
  destruct (Rlt_dec 0 0) as [H | _]; [lra |].
  destruct (Req_dec_T 0 0) as [_ | N]; [| contradiction].
  cbn [Py.mul].
  destruct (Req_dec_T 278.5 0) as [E | _]; [lra |].
  cbn [bind].
  destruct (Req_dec_T (PI * (D / 2) ^ 2) 0) as [E | _]; [lra |].
  cbn [bind Py.round_num]. f_equal.
  replace (C * Rpower D 2.63 * 0 / 278.5 / (PI * (D / 2) ^ 2)) with 0
    by (unfold Rdiv; rewrite Rmult_0_r, !Rmult_0_l; reflexivity).
  apply round_0.
Qed.

Lemma simple_velocity_same (D S C : R) :
  0 < D -> SimpleFlow.calculate_velocity D S C = calculate_velocity D S C.
Proof.
  intros HD. destruct (Req_dec_T S 0) as [E | N].
  - subst S. rewrite calculate_velocity_zero_slope.
    apply simple_velocity_zero_slope. exact HD.
  - apply simple_velocity_nonzero_slope. exact N.
Qed.

Lemma simple_velocity_returns_zero_slope (D C v : R) :
  SimpleFlow.calculate_velocity D 0 C = Ok v -> v = 0.
Proof.
  intros H. destruct (Rlt_dec 0 D) as [HD | HD].
  - rewrite (simple_velocity_zero_slope D C HD) in H.
    injection H as <-. reflexivity.
  - exfalso. revert H.
    unfold SimpleFlow.calculate_velocity, Py.pow, Py.div.
    destruct (Rlt_dec 0 D) as [P | _]; [contradiction |].
    destruct (Rlt_dec 0 0) as [P | _]; [lra |].
    destruct (Req_dec_T 0 0) as [_ | N]; [| contradiction].
    destruct (Req_dec_T 278.5 0) as [E | _]; [lra |].
    destruct (Req_dec_T D 0) as [ED | ND]; cbn [Py.mul bind].
    + subst D.
      destruct (Req_dec_T (PI * (0 / 2) ^ 2) 0) as [_ | N]; [discriminate |].
      exfalso. apply N. simpl pow. lra.
    + pose proof (pipe_area_pos D ND) as HA.
      destruct (Req_dec_T (PI * (D / 2) ^ 2) 0) as [E | _]; [lra |].
      cbn [bind Py.round_num]. discriminate.
Qed.

(** The test of the slope that [flow_model.py] adds takes no result away
    and changes none: on a slope other than 0 the two versions of
    [calculate_velocity] are the same computation, and whenever the
    version of [simple_flow.py] returns a velocity the version of
    [flow_model.py] returns the same one.  It only adds results: on a zero
    diameter and zero slope this version raises where the other returns
    0. *)
Theorem simple_velocity_agrees :
  (forall D S C : R,
     S <> 0 ->
     SimpleFlow.calculate_velocity D S C = calculate_velocity D S C) /\
  (forall D S C v : R,
     SimpleFlow.calculate_velocity D S C = Ok v ->
     calculate_velocity D S C = Ok v) /\
  (forall C : R,
     SimpleFlow.calculate_velocity 0 0 C = Raise ZeroDivisionError /\
     calculate_velocity 0 0 C = Ok 0).
Proof.
  split; [exact simple_velocity_nonzero_slope |]. split.
  - intros D S C v H. destruct (Req_dec_T S 0) as [E | N].
    + subst S. rewrite (simple_velocity_returns_zero_slope D C v H).
      apply calculate_velocity_zero_slope.
    + rewrite <- (simple_velocity_nonzero_slope D S C N). exact H.
  - intros C. split; [| apply calculate_velocity_zero_slope].
    unfold SimpleFlow.calculate_velocity, Py.pow, Py.div.
    destruct (Rlt_dec 0 0) as [H | _]; [lra |].
    destruct (Req_dec_T 0 0) as [_ | N]; [| contradiction].
    cbn [Py.mul].
    destruct (Req_dec_T 278.5 0) as [E | _]; [lra |].
    cbn [bind].
    destruct (Req_dec_T (PI * (0 / 2) ^ 2) 0) as [_ | N]; [reflexivity |].
    exfalso. apply N. simpl pow. lra.
Qed.

Lemma simple_diameter_pos (typed : SimpleFlow.inputs) :
  0 < SimpleFlow.calculate_pipe_diameter_reduction
        (SimpleFlow.material (SimpleFlow.get_user_input typed))
        (IZR (SimpleFlow.age (SimpleFlow.get_user_input typed)))
        (SimpleFlow.initial_diameter (SimpleFlow.get_user_input typed)).
Proof.
  rewrite simple_diameter_reduction_same.
  pose proof (diameter_reduction_floor
                (SimpleFlow.material (SimpleFlow.get_user_input typed))
                (IZR (SimpleFlow.age (SimpleFlow.get_user_input typed)))
                (SimpleFlow.initial_diameter (SimpleFlow.get_user_input typed))).
  lra.
Qed.

Lemma round_within (x : R) : x - 0.005 <= Py.round x 2 <= x + 0.005.
Proof. pose proof (round_error x 2) as H. simpl pow in H. lra. Qed.

(** [simple_flow.py]'s [main] never records a missing travel time: it
    returns a record only for a positive slope whose velocity rounds to
    more than 0, and the record then holds a travel time within 0.005 of
    distance over velocity; for a slope of 0 or less it raises before
    anything is written (on a slope of 0 at the line that prints
    [travel_time / 60], the travel time being [None]). *)
Theorem simple_main_never_records_none (typed : SimpleFlow.inputs) :
  (forall d,
     SimpleFlow.main typed = Ok d ->
     0 < SimpleFlow.slope typed /\
     0 < SimpleFlow.velocity_mps d /\
     exists t,
       SimpleFlow.travel_time_seconds d = Some t /\
       SimpleFlow.distance typed / SimpleFlow.velocity_mps d - 0.005
         <= t
         <= SimpleFlow.distance typed / SimpleFlow.velocity_mps d + 0.005) /\
  (SimpleFlow.slope typed <= 0 -> exists e, SimpleFlow.main typed = Raise e).
Proof.
  pose proof (simple_diameter_pos typed) as HD.
  unfold SimpleFlow.main.
  set (D := SimpleFlow.calculate_pipe_diameter_reduction _ _ _) in *.
  set (C := Py.get SimpleFlow.ROUGHNESS_COEFFICIENTS _ 100).
  cbn [SimpleFlow.get_user_input SimpleFlow.slope SimpleFlow.distance].
  rewrite (simple_velocity_same D (SimpleFlow.slope typed) C HD).
  destruct (Rlt_dec (SimpleFlow.slope typed) 0) as [Hneg | Hnn].
  { rewrite (calculate_velocity_neg_slope D _ C HD Hneg). cbn [bind].
    split; [intros d H; discriminate |].
    intros _. eexists. reflexivity. }
  assert (Hs0 : 0 <= SimpleFlow.slope typed) by lra.
  rewrite (calculate_velocity_nonneg_slope D _ C HD Hs0). cbn [bind].
  unfold SimpleFlow.calculate_travel_time.
  destruct (Rlt_dec 0 (velocity_value D (SimpleFlow.slope typed) C))
    as [Hv | Hv]; cbn [bind].
  - assert (Hs : 0 < SimpleFlow.slope typed).
    { destruct (Req_dec_T (SimpleFlow.slope typed) 0) as [E | N]; [| lra].
      exfalso. unfold velocity_value in Hv. rewrite E in Hv.
      destruct (Req_dec_T 0 0) as [_ | N]; [lra | contradiction]. }
    split.
    + intros d H. injection H as <-.
      cbn [SimpleFlow.velocity_mps SimpleFlow.travel_time_seconds].
      split; [exact Hs |]. split; [exact Hv |].
      eexists. split; [reflexivity | apply round_within].
    + intros Hle. lra.
  - split; [intros d H; discriminate |].
    intros _. eexists. reflexivity.
Qed.

Lemma simple_main_never_records_none_witness :
  exists e,
    SimpleFlow.main
      {| SimpleFlow.material := "Steel"; SimpleFlow.age := 10;
         SimpleFlow.initial_diameter := 0.5; SimpleFlow.distance := 1000;
         SimpleFlow.slope := 0 |} = Raise e.
Proof.
  apply (simple_main_never_records_none
           {| SimpleFlow.material := "Steel"; SimpleFlow.age := 10;
              SimpleFlow.initial_diameter := 0.5; SimpleFlow.distance := 1000;
              SimpleFlow.slope := 0 |}).
  cbn [SimpleFlow.slope]. lra.
Defined.

End SimpleFlowProperties.

Section SimpleFlowAsRoute.

(** [simple_flow.py] computes what [flow_model.py] computes for a route of
    one segment and no pump, except that it rounds the travel time: when
    its [main] returns a record, the [main] of [flow_model.py] returns one
    for that route with the same material and reduced diameter and a finite
    travel time, whose rounding to two decimals is the travel time
    recorded here. *)
Theorem simple_flow_is_single_segment
    (typed : SimpleFlow.inputs) (ds : SimpleFlow.data) :
  SimpleFlow.main typed = Ok ds ->
  exists df t,
    main (single_segment_route typed) = Ok df /\
    pipe_material df = SimpleFlow.pipe_material ds /\
    reduced_diameter_meters df = SimpleFlow.reduced_diameter_meters ds /\
    travel_time_seconds df = Py.Finite t /\
    SimpleFlow.travel_time_seconds ds = Some (Py.round t 2).
Proof.
  intros Hs.
  pose proof (effective_diameter_pos (single_segment_route typed)) as HD.
  unfold SimpleFlow.main in Hs.
  change (SimpleFlow.calculate_pipe_diameter_reduction _ _ _)
    with (effective_diameter (single_segment_route typed)) in Hs.
  change (Py.get SimpleFlow.ROUGHNESS_COEFFICIENTS _ 100)
    with (roughness_of (single_segment_route typed)) in Hs.
  cbn [SimpleFlow.get_user_input SimpleFlow.slope SimpleFlow.distance] in Hs.
  set (D := effective_diameter (single_segment_route typed)) in *.
  set (C := roughness_of (single_segment_route typed)) in *.
  rewrite (simple_velocity_same D _ C HD) in Hs.
  destruct (Rlt_dec (SimpleFlow.slope typed) 0) as [Hneg | Hnn].
  { rewrite (calculate_velocity_neg_slope D _ C HD Hneg) in Hs. discriminate. }
  assert (Hs0 : 0 <= SimpleFlow.slope typed) by lra.
  rewrite (calculate_velocity_nonneg_slope D _ C HD Hs0) in Hs.
  cbn [bind] in Hs. unfold SimpleFlow.calculate_travel_time in Hs.
  set (v := velocity_value D (SimpleFlow.slope typed) C) in *.
  destruct (Rlt_dec 0 v) as [Hv | Hv]; cbn [bind] in Hs; [| discriminate].
  injection Hs as <-.
  assert (Hall : Forall (fun seg : R * R => 0 <= fst seg)
                   (slopes (single_segment_route typed))).
  { cbn [single_segment_route slopes].
    constructor; [exact Hs0 | constructor]. }
  rewrite (main_ok (single_segment_route typed))
    by (try exact Hall; cbn [single_segment_route slopes]; discriminate).
  eexists. exists (0 + SimpleFlow.distance typed / v).
  split; [reflexivity |].
  cbn [pipe_material reduced_diameter_meters travel_time_seconds
       SimpleFlow.pipe_material SimpleFlow.reduced_diameter_meters
       SimpleFlow.travel_time_seconds].
  split; [reflexivity |]. split; [reflexivity |]. split.
  - cbn [single_segment_route slopes pumps subtract_flowrates segments_time
         fold_left fst snd].
    fold D C v. unfold section_time.
    destruct (Rlt_dec 0 v) as [_ | N]; [reflexivity | contradiction].
  - now rewrite Rplus_0_l.
Qed.

End SimpleFlowAsRoute.

Section SimpleFlowWitness.

Lemma simple_main_returns (typed : SimpleFlow.inputs) :
  0 < SimpleFlow.slope typed ->
  0 < velocity_value (effective_diameter (single_segment_route typed))
        (SimpleFlow.slope typed) (roughness_of (single_segment_route typed)) ->
  exists d, SimpleFlow.main typed = Ok d.
Proof.
  intros Hs Hv.
  pose proof (effective_diameter_pos (single_segment_route typed)) as HD.
  unfold SimpleFlow.main.
  change (SimpleFlow.calculate_pipe_diameter_reduction _ _ _)
    with (effective_diameter (single_segment_route typed)).
  change (Py.get SimpleFlow.ROUGHNESS_COEFFICIENTS _ 100)
    with (roughness_of (single_segment_route typed)).
  cbn [SimpleFlow.get_user_input SimpleFlow.slope SimpleFlow.distance].
  rewrite (simple_velocity_same _ _ _ HD).
  rewrite (calculate_velocity_nonneg_slope _ _ _ HD (Rlt_le _ _ Hs)).
  cbn [bind]. unfold SimpleFlow.calculate_travel_time.
  destruct (Rlt_dec 0 _) as [_ | N]; [| contradiction].
  cbn [bind]. eexists. reflexivity.
Qed.

Lemma simple_flow_is_single_segment_witness :
  exists ds df t,
    SimpleFlow.main
      {| SimpleFlow.material := "Cast Iron"; SimpleFlow.age := 0;
         SimpleFlow.initial_diameter := 1; SimpleFlow.distance := 1000;
         SimpleFlow.slope := 0.05 |} = Ok ds /\
    main (cast_iron_route [(0.05, 1000)] []) = Ok df /\
    travel_time_seconds df = Py.Finite t /\
    SimpleFlow.travel_time_seconds ds = Some (Py.round t 2).
Proof.
  destruct (simple_main_returns
              {| SimpleFlow.material := "Cast Iron"; SimpleFlow.age := 0;
                 SimpleFlow.initial_diameter := 1; SimpleFlow.distance := 1000;
                 SimpleFlow.slope := 0.05 |}) as [ds Hds].
  - cbn [SimpleFlow.slope]. lra.
  - change (effective_diameter (single_segment_route _))
      with (effective_diameter (cast_iron_route [] [])).
    rewrite effective_diameter_cast_iron.
    change (roughness_of (single_segment_route _)) with 100.
    cbn [SimpleFlow.slope]. unfold velocity_value.
    destruct (Req_dec_T 0.05 0) as [E | _]; [lra |].
    pose proof (velocity_rounds_above 0.05 ltac:(lra)). lra.
  - destruct (simple_flow_is_single_segment _ ds Hds)
      as [df [t [Hdf [_ [_ [Ht Hr]]]]]].
    exists ds, df, t. repeat split; assumption.
Defined.

End SimpleFlowWitness.

(** * [corrosion-failure_prediction.py] *)

Section CorrosionFailureProperties.

Lemma failure_rate_nonneg (m : string) :
  0 <= Py.get CorrosionFailure.CORROSION_RATES m 0.1.
Proof. exact (corrosion_rate_nonneg m). Qed.

(** Every rate of the table, and the default, has at most four decimals. *)
Lemma failure_rate_decimal (m : string) :
  Py.round (Py.get CorrosionFailure.CORROSION_RATES m 0.1) 4 =
  Py.get CorrosionFailure.CORROSION_RATES m 0.1.
Proof.
  unfold CorrosionFailure.CORROSION_RATES. cbn [Py.get].
  repeat match goal with
         | |- context [String.eqb m ?k] => destruct (String.eqb m k)
         end.
  - round_to 1000%Z. simpl pow. lra.
  - round_to 500%Z. simpl pow. lra.
  - round_to 2000%Z. simpl pow. lra.
  - round_to 1500%Z. simpl pow. lra.
  - round_to 200%Z. simpl pow. lra.
  - round_to 100%Z. simpl pow. lra.
  - round_to 0%Z. simpl pow. lra.
  - round_to 50%Z. simpl pow. lra.
  - round_to 1000%Z. simpl pow. lra.
Qed.

(** Corrosion does not slow down: the rate does not decrease with the age,
    and from age 0 on it is at least the base rate of the material (the
    Cast Iron rate for a material that is not in the table). *)
Theorem corrosion_rate_grows_with_age (m : string) (age1 age2 : R) :
  0 <= age1 -> age1 <= age2 ->
  Py.get CorrosionFailure.CORROSION_RATES m 0.1
    <= CorrosionFailure.calculate_corrosion_rate m age1
    <= CorrosionFailure.calculate_corrosion_rate m age2.
Proof.
  intros H0 H12. unfold CorrosionFailure.calculate_corrosion_rate.
  pose proof (failure_rate_nonneg m) as Hb.
  pose proof (failure_rate_decimal m) as Hd.
  set (b := Py.get CorrosionFailure.CORROSION_RATES m 0.1) in *.
  split.
  - rewrite <- Hd at 1. apply round_mono. nra.
  - apply round_mono. nra.
Qed.

Lemma corrosion_rate_grows_with_age_witness :
  Py.get CorrosionFailure.CORROSION_RATES "Steel" 0.1
    <= CorrosionFailure.calculate_corrosion_rate "Steel" 10
    <= CorrosionFailure.calculate_corrosion_rate "Steel" 25.
Proof. apply (corrosion_rate_grows_with_age "Steel" 10 25); lra. Defined.

Lemma py_max_0 (a : R) : 0 <= Py.max a 0.
Proof. unfold Py.max. destruct (Rlt_dec a 0); lra. Qed.

(** [estimate_remaining_life] answers "Unlimited" exactly for a rate that
    is not positive; a number of years it returns is never negative, and
    it is 0 for a wall already at or below the minimum thickness. *)
Theorem remaining_life_never_negative (initial minimum rate : R) :
  (CorrosionFailure.estimate_remaining_life initial minimum rate
     = CorrosionFailure.Unlimited <-> rate <= 0) /\
  (forall y,
     CorrosionFailure.estimate_remaining_life initial minimum rate
       = CorrosionFailure.Years y -> 0 <= y) /\
  (0 < rate -> initial <= minimum ->
   CorrosionFailure.estimate_remaining_life initial minimum rate
     = CorrosionFailure.Years 0).
Proof.
  unfold CorrosionFailure.estimate_remaining_life.
  destruct (Rle_dec rate 0) as [Hle | Hgt].
  - split; [split; [intros _; exact Hle | reflexivity] |].
    split; [intros y H; discriminate | intros H; lra].
  - split; [split; [discriminate | contradiction] |].
    split.
    + intros y H. injection H as <-. apply py_max_0.
    + intros Hr Him. f_equal.
      assert (Hx : (initial - minimum) / rate <= 0).
      { apply Rmult_le_reg_r with rate; [exact Hr |].
        replace ((initial - minimum) / rate * rate) with (initial - minimum)
          by (field; lra).
        lra. }
      pose proof (round_mono _ _ 2 Hx) as Hround. rewrite round_0 in Hround.
      unfold Py.max. destruct (Rlt_dec _ 0); lra.
Qed.

(** A thicker wall or a slower corrosion never shortens the estimate: for
    positive rates and a wall above the minimum, the years do not decrease
    when the initial thickness grows or when the rate drops. *)
Theorem remaining_life_monotone (i1 i2 minimum r1 r2 : R) :
  minimum <= i1 -> i1 <= i2 -> 0 < r2 -> r2 <= r1 ->
  exists y1 y2,
    CorrosionFailure.estimate_remaining_life i1 minimum r1
      = CorrosionFailure.Years y1 /\
    CorrosionFailure.estimate_remaining_life i2 minimum r2
      = CorrosionFailure.Years y2 /\
    y1 <= y2.
Proof.
  intros Hm Hi Hr2 Hr. unfold CorrosionFailure.estimate_remaining_life.
  destruct (Rle_dec r1 0) as [H | _]; [lra |].
  destruct (Rle_dec r2 0) as [H | _]; [lra |].
  do 2 eexists. split; [reflexivity |]. split; [reflexivity |].
  assert (Hx : (i1 - minimum) / r1 <= (i2 - minimum) / r2).
  { apply Rle_trans with ((i1 - minimum) / r2).
    - apply Rmult_le_compat_l; [lra |].
      apply Rinv_le_contravar; assumption.
    - apply Rmult_le_compat_r; [left; apply Rinv_0_lt_compat; exact Hr2 | lra]. }
  pose proof (round_mono _ _ 2 Hx) as Hround.
  unfold Py.max.
  destruct (Rlt_dec (Py.round ((i1 - minimum) / r1) 2) 0),
           (Rlt_dec (Py.round ((i2 - minimum) / r2) 2) 0); lra.
Qed.

Lemma remaining_life_monotone_witness :
  exists y1 y2,
    CorrosionFailure.estimate_remaining_life 8 3 0.2
      = CorrosionFailure.Years y1 /\
    CorrosionFailure.estimate_remaining_life 10 3 0.1
      = CorrosionFailure.Years y2 /\
    y1 <= y2.
Proof. apply (remaining_life_monotone 8 10 3 0.2 0.1); lra. Defined.

Lemma failure_rate_not_plastic (m : string) :
  m <> "PVC/Plastic" ->
  0.005 <= Py.get CorrosionFailure.CORROSION_RATES m 0.1.
Proof.
  intros Hm. unfold CorrosionFailure.CORROSION_RATES. cbn [Py.get].
  destruct (String.eqb m "PVC/Plastic") eqn:E.
  { apply String.eqb_eq in E. contradiction. }
  repeat match goal with
         | |- context [String.eqb m ?k] => destruct (String.eqb m k)
         end; lra.
Qed.

(** In a run for a pipe of age 0 or more, the remaining life is
    "Unlimited" exactly when the material recorded is PVC/Plastic; every
    other material, the Cast Iron put in place of an unknown one included,
    gets a number of years. *)
Theorem unlimited_life_only_for_plastic (typed : CorrosionFailure.inputs) :
  (0 <= CorrosionFailure.age typed)%Z ->
  CorrosionFailure.remaining_life_years (CorrosionFailure.main typed)
    = CorrosionFailure.Unlimited <->
  CorrosionFailure.pipe_material (CorrosionFailure.main typed) = "PVC/Plastic".
Proof.
  intros Hage. unfold CorrosionFailure.main.
  cbn [CorrosionFailure.remaining_life_years CorrosionFailure.pipe_material].
  set (m := CorrosionFailure.material (CorrosionFailure.get_user_input typed)).
  cbn [CorrosionFailure.get_user_input CorrosionFailure.age
       CorrosionFailure.initial_thickness CorrosionFailure.min_thickness].
  assert (Ha : 0 <= IZR (CorrosionFailure.age typed)) by (apply IZR_le; exact Hage).
  set (a := IZR (CorrosionFailure.age typed)) in *.
  unfold CorrosionFailure.estimate_remaining_life,
         CorrosionFailure.calculate_corrosion_rate.
  split.
  - intros Hu.
    destruct (string_dec m "PVC/Plastic") as [E | N]; [exact E | exfalso].
    pose proof (failure_rate_not_plastic m N) as Hb.
    set (b := Py.get CorrosionFailure.CORROSION_RATES m 0.1) in *.
    assert (Hr : 0.005 <= Py.round (b * (1 + 0.02 * a)) 4).
    { replace 0.005 with (Py.round (IZR 50 / 10 ^ 4) 4) at 1
        by (rewrite round_decimal; simpl pow; lra).
      apply round_mono. simpl pow. nra. }
    destruct (Rle_dec (Py.round (b * (1 + 0.02 * a)) 4) 0) as [H | _];
      [lra | discriminate].
  - intros E. rewrite E.
    replace (Py.get CorrosionFailure.CORROSION_RATES "PVC/Plastic" 0.1)
      with 0 by (cbn; lra).
    rewrite Rmult_0_l, round_0.
    destruct (Rle_dec 0 0) as [_ | N]; [reflexivity | lra].
Qed.

Lemma unlimited_life_only_for_plastic_witness :
  CorrosionFailure.remaining_life_years
    (CorrosionFailure.main
       {| CorrosionFailure.material := "PVC/Plastic";
          CorrosionFailure.age := 40;
          CorrosionFailure.initial_thickness := 10;
          CorrosionFailure.min_thickness := 3 |})
  = CorrosionFailure.Unlimited.
Proof.
  apply (unlimited_life_only_for_plastic
           {| CorrosionFailure.material := "PVC/Plastic";
              CorrosionFailure.age := 40;
              CorrosionFailure.initial_thickness := 10;
              CorrosionFailure.min_thickness := 3 |}).
  - cbn [CorrosionFailure.age]. lia.
  - reflexivity.
Defined.

End CorrosionFailureProperties.

(** * [simple_flow-spec_gravity.py] *)

Section FlowRate.

Lemma half_power_sqrt (x : R) : 0 < x -> Rpower x 0.5 = sqrt x.
Proof.
  intros Hx. replace 0.5 with (/ 2) by lra. apply Rpower_sqrt. exact Hx.
Qed.

Lemma flow_rate_positive_gravity (d v sg : R) :
  0 < sg ->
  SpecGravity.calculate_flow_rate d v sg =
  Ok (Py.round (3.1416 * (d / 2) ^ 2 * v) 2,
      Py.round (3.1416 * (d / 2) ^ 2 * v / sqrt sg) 2).
Proof.
  intros Hsg. unfold SpecGravity.calculate_flow_rate, Py.pow, div_by_num, Py.div.
  destruct (Rlt_dec 0 sg) as [_ | N]; [| contradiction].
  rewrite (half_power_sqrt sg Hsg).
  pose proof (sqrt_lt_R0 sg Hsg) as Hs.
  destruct (Req_dec_T (sqrt sg) 0) as [E | _]; [lra |].
  reflexivity.
Qed.

(** [calculate_flow_rate] needs a positive specific gravity: for 0 (a
    division by zero) and for a negative one (whose square root is
    complex, which [round] rejects) it raises, so a pair of flow rates is
    returned only for a positive one. *)
Theorem flow_rate_outcome (d v sg : R) :
  (sg <= 0 -> exists e, SpecGravity.calculate_flow_rate d v sg = Raise e) /\
  (forall flows,
     SpecGravity.calculate_flow_rate d v sg = Ok flows -> 0 < sg).
Proof.
  assert (Hraise : sg <= 0 ->
            exists e, SpecGravity.calculate_flow_rate d v sg = Raise e).
  { intros Hle. unfold SpecGravity.calculate_flow_rate, Py.pow, div_by_num, Py.div.
    destruct (Rlt_dec 0 sg) as [H | _]; [lra |].
    destruct (Req_dec_T sg 0) as [E | N].
    - destruct (Req_dec_T 0 0) as [_ | N]; [| contradiction].
      eexists. reflexivity.
    - eexists. reflexivity. }
  split; [exact Hraise |].
  intros flows H. destruct (Rlt_dec 0 sg) as [Hpos | Hnp]; [exact Hpos |].
  destruct (Hraise ltac:(lra)) as [e He]. rewrite He in H. discriminate.
Qed.

(** The adjustment for specific gravity leaves the flow rate of water
    (specific gravity 1) as it is, does not raise it for a heavier fluid
    and does not lower it for a lighter one, the velocity not being
    negative. *)
Theorem flow_rate_adjustment (d v sg : R) :
  0 < sg -> 0 <= v ->
  exists flow adjusted,
    SpecGravity.calculate_flow_rate d v sg = Ok (flow, adjusted) /\
    0 <= adjusted /\
    (sg = 1 -> adjusted = flow) /\
    (1 <= sg -> adjusted <= flow) /\
    (sg <= 1 -> flow <= adjusted).
Proof.
  intros Hsg Hv. rewrite (flow_rate_positive_gravity d v sg Hsg).
  do 2 eexists. split; [reflexivity |].
  pose proof (sqrt_lt_R0 sg Hsg) as Hs.
  assert (Hq : 0 <= 3.1416 * (d / 2) ^ 2 * v).
  { apply Rmult_le_pos; [| exact Hv].
    apply Rmult_le_pos; [lra | simpl pow; nra]. }
  set (q := 3.1416 * (d / 2) ^ 2 * v) in *.
  assert (Hdiv : forall s, 0 < s -> q / s * s = q) by (intros; field; lra).
  split; [| split; [| split]].
  - rewrite <- (round_0 2). apply round_mono.
    apply Rmult_le_pos; [exact Hq | left; apply Rinv_0_lt_compat; exact Hs].
  - intros ->. rewrite sqrt_1. f_equal. field.
  - intros H1. apply round_mono.
    assert (Hs1 : 1 <= sqrt sg) by (rewrite <- sqrt_1; apply sqrt_le_1; lra).
    apply Rmult_le_reg_r with (sqrt sg); [exact Hs |].
    rewrite (Hdiv _ Hs). nra.
  - intros H1. apply round_mono.
    assert (Hs1 : sqrt sg <= 1) by (rewrite <- sqrt_1; apply sqrt_le_1; lra).
    apply Rmult_le_reg_r with (sqrt sg); [exact Hs |].
    rewrite (Hdiv _ Hs). nra.
Qed.

Lemma flow_rate_adjustment_witness :
  exists flow adjusted,
    SpecGravity.calculate_flow_rate 0.5 2 1 = Ok (flow, adjusted) /\
    adjusted = flow.
Proof.
  destruct (flow_rate_adjustment 0.5 2 1) as [flow [adj [H [_ [Heq _]]]]];
    [lra | lra |].
  exists flow, adj. split; [exact H | apply Heq; reflexivity].
Defined.

End FlowRate.

Section KeyboardProperties.

Variable parse_float : string -> option R.

(** [get_positive_float] returns the first positive number typed: its
    result is positive and is the reading of a line before which every
    line was rejected (not a number, or a number that is not positive), the
    lines after it being left unread; it ends without a result only when
    every line is rejected. *)
Theorem get_positive_float_first_positive (lines : list string) :
  (forall value rest,
     SpecGravity.get_positive_float parse_float lines = Some (value, rest) ->
     0 < value /\
     exists skipped l,
       lines = (skipped ++ l :: rest)%list /\
       parse_float l = Some value /\
       Forall (fun l' => forall x, parse_float l' = Some x -> x <= 0) skipped) /\
  (SpecGravity.get_positive_float parse_float lines = None <->
   Forall (fun l' => forall x, parse_float l' = Some x -> x <= 0) lines).
Proof.
  induction lines as [| l rest IH].
  - split; [intros value rest H; discriminate |].
    split; [constructor | reflexivity].
  - destruct IH as [IHsome IHnone]. cbn [SpecGravity.get_positive_float].
    assert (Hskip :
      (forall x, parse_float l = Some x -> x <= 0) ->
      (forall value rest',
         SpecGravity.get_positive_float parse_float rest = Some (value, rest') ->
         0 < value /\
         exists skipped l0,
           l :: rest = (skipped ++ l0 :: rest')%list /\
           parse_float l0 = Some value /\
           Forall (fun l' => forall x, parse_float l' = Some x -> x <= 0)
             skipped) /\
      (SpecGravity.get_positive_float parse_float rest = None <->
       Forall (fun l' => forall x, parse_float l' = Some x -> x <= 0)
         (l :: rest))).
    { intros Hrej. split.
      - intros value rest' H.
        destruct (IHsome value rest' H) as [Hv [skipped [l' [E [Hp Hs]]]]].
        split; [exact Hv |]. exists (l :: skipped), l'.
        rewrite E. repeat split; [exact Hp | constructor; assumption].
      - rewrite IHnone. split; [intros H; constructor; assumption |].
        intros H. inversion H; assumption. }
    destruct (parse_float l) as [x |] eqn:El.
    + destruct (Rlt_dec 0 x) as [Hx | Hx].
      * split.
        -- intros value rest' H. injection H as <- <-.
           split; [exact Hx |]. exists [], l.
           repeat split; [exact El | constructor].
        -- split; [discriminate |].
           intros Hall. inversion Hall as [| ? ? Hl _]; subst.
           specialize (Hl x El). lra.
      * apply Hskip. intros y Hy. injection Hy as <-. lra.
    + apply Hskip. intros y Hy. discriminate.
Qed.

Lemma get_positive_float_positive (lines rest : list string) (value : R) :
  SpecGravity.get_positive_float parse_float lines = Some (value, rest) ->
  0 < value.
Proof.
  revert rest. induction lines as [| l tl IH]; intros rest H; [discriminate |].
  cbn [SpecGravity.get_positive_float] in H.
  destruct (parse_float l) as [x |]; [| exact (IH _ H)].
  destruct (Rlt_dec 0 x) as [Hx | _]; [| exact (IH _ H)].
  injection H as <- _. exact Hx.
Qed.

(** The flow-rate program never records a missing travel time: the four
    numbers of a record it produces are all positive, whatever was typed
    around them, and its travel time is a number within 0.005 of the pipe
    length over the velocity. *)
Theorem spec_gravity_main_always_records
    (lines : list string) (d : SpecGravity.data) :
  SpecGravity.main parse_float lines = Some (Ok d) ->
  0 < SpecGravity.pipe_diameter_meters d /\
  0 < SpecGravity.velocity_mps d /\
  0 < SpecGravity.specific_gravity d /\
  0 < SpecGravity.pipe_length_meters d /\
  exists t,
    SpecGravity.travel_time_seconds d = Some t /\
    SpecGravity.pipe_length_meters d / SpecGravity.velocity_mps d - 0.005
      <= t
      <= SpecGravity.pipe_length_meters d / SpecGravity.velocity_mps d + 0.005.
Proof.
  unfold SpecGravity.main.
  destruct (SpecGravity.get_positive_float parse_float lines)
    as [[diameter l1] |] eqn:E1; [| discriminate].
  destruct (SpecGravity.get_positive_float parse_float l1)
    as [[velocity l2] |] eqn:E2; [| discriminate].
  destruct (SpecGravity.get_positive_float parse_float l2)
    as [[sg l3] |] eqn:E3; [| discriminate].
  destruct (SpecGravity.get_positive_float parse_float l3)
    as [[len l4] |] eqn:E4; [| discriminate].
  apply get_positive_float_positive in E1, E2, E3, E4.
  rewrite (flow_rate_positive_gravity diameter velocity sg E3). cbn [bind].
  intros H. injection H as <-.
  cbn [SpecGravity.pipe_diameter_meters SpecGravity.velocity_mps
       SpecGravity.specific_gravity SpecGravity.pipe_length_meters
       SpecGravity.travel_time_seconds].
  repeat (split; [assumption |]).
  unfold SpecGravity.calculate_travel_time.
  destruct (Rlt_dec 0 velocity) as [_ | N]; [| contradiction].
  eexists. split; [reflexivity |].
  pose proof (round_error (len / velocity) 2) as Hr. simpl pow in Hr. lra.
Qed.

End KeyboardProperties.

Section KeyboardSteps.

Variable parse_float : string -> option R.

Lemma get_positive_float_accepts (l : string) (rest : list string) (x : R) :
  parse_float l = Some x -> 0 < x ->
  SpecGravity.get_positive_float parse_float (l :: rest) = Some (x, rest).
Proof.
  intros E Hx. cbn [SpecGravity.get_positive_float]. rewrite E.
  destruct (Rlt_dec 0 x) as [_ | N]; [reflexivity | contradiction].
Qed.

Lemma get_positive_float_rejects (l : string) (rest : list string) :
  (forall x, parse_float l = Some x -> x <= 0) ->
  SpecGravity.get_positive_float parse_float (l :: rest) =
  SpecGravity.get_positive_float parse_float rest.
Proof.
  intros Hrej. cbn [SpecGravity.get_positive_float].
  destruct (parse_float l) as [x |]; [| reflexivity].
  specialize (Hrej x eq_refl).
  destruct (Rlt_dec 0 x) as [H | _]; [lra | reflexivity].
Qed.

(** Both programs carry the same [get_positive_float]. *)
Lemma tank_get_positive_float_same (lines : list string) :
  TankVolume.get_positive_float parse_float lines =
  SpecGravity.get_positive_float parse_float lines.
Proof. reflexivity. Qed.

End KeyboardSteps.

Section KeyboardWitness.

Lemma parse_digit_rejects_word :
  forall x, parse_digit "abc" = Some x -> x <= 0.
Proof. intros x H. discriminate. Qed.

Lemma parse_digit_rejects_zero :
  forall x, parse_digit "0" = Some x -> x <= 0.
Proof. intros x H. injection H as <-. lra. Qed.

Lemma spec_gravity_main_always_records_witness :
  exists d t,
    SpecGravity.main parse_digit ["abc"; "0"; "2"; "1"; "1"; "2"] = Some (Ok d) /\
    0 < SpecGravity.velocity_mps d /\
    SpecGravity.travel_time_seconds d = Some t.
Proof.
  assert (E : exists d,
            SpecGravity.main parse_digit ["abc"; "0"; "2"; "1"; "1"; "2"]
            = Some (Ok d)).
  { unfold SpecGravity.main.
    rewrite (get_positive_float_rejects _ _ _ parse_digit_rejects_word).
    rewrite (get_positive_float_rejects _ _ _ parse_digit_rejects_zero).
    rewrite (get_positive_float_accepts _ "2" _ 2 eq_refl) by lra.
    rewrite (get_positive_float_accepts _ "1" _ 1 eq_refl) by lra.
    rewrite (get_positive_float_accepts _ "1" _ 1 eq_refl) by lra.
    rewrite (get_positive_float_accepts _ "2" _ 2 eq_refl) by lra.
    rewrite (flow_rate_positive_gravity 2 1 1) by lra. cbn [bind].
    eexists. reflexivity. }
  destruct E as [d Hd].
  destruct (spec_gravity_main_always_records parse_digit _ d Hd)
    as [_ [Hv [_ [_ [t [Ht _]]]]]].
  exists d, t. repeat split; assumption.
Defined.

End KeyboardWitness.

(** * [tank-volume-calculator.py] *)

Section TankVolumeProperties.

(** A spherical tank holds two thirds of the cylindrical tank of the same
    diameter whose height is that diameter (in exact arithmetic, with the
    program's 3.1416 for pi). *)
Theorem sphere_two_thirds_of_cylinder (d : R) :
  TankVolume.calculate_spherical_volume d =
  2 / 3 * TankVolume.calculate_cylindrical_volume d d.
Proof.
  unfold TankVolume.calculate_spherical_volume,
         TankVolume.calculate_cylindrical_volume.
  simpl pow. field.
Qed.



End TankVolumeProperties.

Section TankMain.

Variable parse_float : string -> option R.

Lemma read_choice_valid (lines rest : list string) (choice : string) :
  TankVolume.read_choice lines = Some (choice, rest) ->
  choice = "1" \/ choice = "2".
Proof.
  induction lines as [| c tl IH]; intros H; [discriminate |].
  cbn [TankVolume.read_choice] in H.
  destruct (String.eqb c "1") eqn:E1.
  - injection H as <- _. left. apply String.eqb_eq. exact E1.
  - destruct (String.eqb c "2") eqn:E2; cbn [orb] in H.
    + injection H as <- _. right. apply String.eqb_eq. exact E2.
    + exact (IH H).
Qed.

Lemma read_choice_skips (junk lines : list string) :
  Forall (fun c => c <> "1" /\ c <> "2") junk ->
  TankVolume.read_choice (junk ++ lines)%list = TankVolume.read_choice lines.
Proof.
  intros Hjunk. induction Hjunk as [| c tl [H1 H2] _ IH]; [reflexivity |].
  cbn [app TankVolume.read_choice].
  apply String.eqb_neq in H1, H2. rewrite H1, H2. exact IH.
Qed.

Lemma round_nonneg (x : R) (n : nat) : 0 <= x -> 0 <= Py.round x n.
Proof. intros Hx. rewrite <- (round_0 n). apply round_mono. exact Hx. Qed.

(** The record of the tank program is built from positive dimensions
    only: the radius is half the diameter, and the volume is not negative
    and within 0.005 of the volume of the sphere, or of the cylinder (it
    is that volume brought to two decimals). *)
Theorem tank_main_record (lines : list string) (record : TankVolume.data) :
  TankVolume.main parse_float lines = Some record ->
  match record with
  | TankVolume.Spherical d r v =>
      0 < d /\ r = d / 2 /\ 0 <= v /\
      TankVolume.calculate_spherical_volume d - 0.005
        <= v <= TankVolume.calculate_spherical_volume d + 0.005
  | TankVolume.Cylindrical d r h v =>
      0 < d /\ 0 < h /\ r = d / 2 /\ 0 <= v /\
      TankVolume.calculate_cylindrical_volume d h - 0.005
        <= v <= TankVolume.calculate_cylindrical_volume d h + 0.005
  end.
Proof.
  assert (Hw : forall x, x - 0.005 <= Py.round x 2 <= x + 0.005).
  { intros x. pose proof (round_error x 2) as H. simpl pow in H. lra. }
  unfold TankVolume.main.
  destruct (TankVolume.read_choice lines) as [[choice l1] |]; [| discriminate].
  rewrite !tank_get_positive_float_same.
  destruct (String.eqb choice "1").
  - destruct (SpecGravity.get_positive_float parse_float l1)
      as [[d l2] |] eqn:E1; [| discriminate].
    apply get_positive_float_positive in E1.
    intros H. injection H as <-.
    split; [exact E1 |]. split; [reflexivity |]. split; [| apply Hw].
    apply round_nonneg. unfold TankVolume.calculate_spherical_volume.
    assert (0 < d / 2) by lra. simpl pow.
    assert (0 < d / 2 * (d / 2)) by nra. nra.
  - destruct (SpecGravity.get_positive_float parse_float l1)
      as [[d l2] |] eqn:E1; [| discriminate].
    rewrite !tank_get_positive_float_same.
    destruct (SpecGravity.get_positive_float parse_float l2)
      as [[h l3] |] eqn:E2; [| discriminate].
    apply get_positive_float_positive in E1, E2.
    intros H. injection H as <-.
    split; [exact E1 |]. split; [exact E2 |]. split; [reflexivity |].
    split; [| apply Hw].
    apply round_nonneg. unfold TankVolume.calculate_cylindrical_volume.
    assert (0 < d / 2) by lra. simpl pow.
    assert (0 < d / 2 * (d / 2)) by nra. nra.
Qed.

(** Lines that are neither ["1"] nor ["2"], typed when the type of tank is
    asked, are passed over: the program goes on as if they had not been
    typed. *)
Theorem tank_main_skips_invalid_choices (junk lines : list string) :
  Forall (fun c => c <> "1" /\ c <> "2") junk ->
  TankVolume.main parse_float (junk ++ lines)%list =
  TankVolume.main parse_float lines.
Proof.
  intros Hjunk. unfold TankVolume.main.
  rewrite (read_choice_skips junk lines Hjunk). reflexivity.
Qed.

End TankMain.

Section TankWitness.

Lemma tank_main_skips_invalid_choices_witness :
  TankVolume.main parse_digit (["abc"; "0"] ++ ["1"; "abc"; "2"])%list =
  TankVolume.main parse_digit ["1"; "abc"; "2"].
Proof.
  apply (tank_main_skips_invalid_choices parse_digit ["abc"; "0"]).
  repeat constructor; discriminate.
Defined.

Lemma tank_main_record_witness :
  exists v,
    TankVolume.main parse_digit ["1"; "abc"; "2"] =
      Some (TankVolume.Spherical 2 (2 / 2) v) /\
    0 <= v.
Proof.
  assert (E : TankVolume.main parse_digit ["1"; "abc"; "2"] =
              Some (TankVolume.Spherical 2 (2 / 2)
                      (Py.round (TankVolume.calculate_spherical_volume 2) 2))).
  { unfold TankVolume.main. cbn [TankVolume.read_choice].
    change (String.eqb "1" "1") with true. cbn [orb].
    rewrite tank_get_positive_float_same.
    rewrite (get_positive_float_rejects _ _ _ parse_digit_rejects_word).
    rewrite (get_positive_float_accepts _ "2" _ 2 eq_refl) by lra.
    reflexivity. }
  eexists. split; [exact E |].
  apply (tank_main_record parse_digit _ _ E).
Defined.

End TankWitness.
